(** * http-pure-python: the request parser, the multipart decoder and the
    isPrime handler of [server.py]

    The development embeds [HTTPRequest.doParse], [FormData.doParse] and
    [HTTPServer.handle_is_prime] together with the Python built-ins they
    call ([bytes.split], [str.split], [str.strip], [str.startswith],
    [bytes.decode], [str.encode], dict comprehensions, [next] on a
    generator, tuple unpacking).

    - [bytes] objects are lists of [Byte.byte];
    - [str] objects are lists of Unicode code points (as [N]);
    - dictionaries that are only looked up are [gmap]s; dictionaries whose
      iteration order reaches the output (response headers, the JSON body)
      are association lists kept in insertion order;
    - exceptions are the [Raise] case of [result]. *)

From Stdlib Require Import ZArith NArith Znumtheory Strings.Byte.
From stdpp Require Import base option list gmap strings pretty.

Local Open Scope string_scope.
Local Open Scope list_scope.
Local Open Scope nat_scope.

(** ** Exceptions *)

Inductive exn :=
| ValueError
| StopIteration
| IndexError
| KeyError
| TypeError
| OverflowError
| UnicodeDecodeError
| UnicodeEncodeError.

Inductive result (A : Type) :=
| Ok (a : A)
| Raise (e : exn).
Arguments Ok {A} a.
Arguments Raise {A} e.

#[global] Instance exn_eq_dec : EqDecision exn.
Proof. solve_decision. Defined.

#[global] Instance result_ret : MRet result := @Ok.
#[global] Instance result_bind : MBind result := λ A B f m,
  match m with
  | Ok a => f a
  | Raise e => Raise e
  end.

#[global] Instance result_fmap : FMap result := λ A B f m,
  match m with
  | Ok a => Ok (f a)
  | Raise e => Raise e
  end.

Definition is_Ok {A} (r : result A) : Prop := ∃ a, r = Ok a.

(** ** Python built-ins *)

Module Py.

Definition bytes := list byte.
Definition str := list N.

#[global] Instance byte_eq_dec : EqDecision byte := Byte.byte_eq_dec.

(** The [str] whose code points are the values of the bytes. *)
Definition latin1 (b : bytes) : str := Byte.to_N <$> b.

(** Literals: [B "abc"] is [b'abc'], [U "abc"] is ['abc']. *)
Definition B (s : string) : bytes := String.list_byte_of_string s.
Definition U (s : string) : str := latin1 (B s).

(** The bytes that a literal cannot hold: [\r], [\n] and the double
    quote. [CRLF] is [b'\r\n'], [crlf] is ['\r\n']. *)
Definition CR : byte := x0d.
Definition LF : byte := x0a.
Definition DQUOTE : byte := x22.
Definition CRLF : bytes := [CR; LF].
Definition crlf : str := latin1 CRLF.
Definition quoted (s : bytes) : bytes := [DQUOTE] ++ s ++ [DQUOTE].

(** Sequence operations shared by [bytes] and [str]. *)
Section Seq.
Context {A : Type} `{EqDecision A}.

(** [s.startswith(p)] *)
Definition startswith (p s : list A) : bool := bool_decide (p `prefix_of` s).

(** [s.find(sub)]: the index of the first occurrence, if any. *)
Fixpoint find (sub s : list A) : option nat :=
  if startswith sub s then Some 0
  else match s with
       | [] => None
       | _ :: s' => S <$> find sub s'
       end.

(** [sub in s] *)
Definition contains (sub s : list A) : bool :=
  match find sub s with Some _ => true | None => false end.

(** [s.split(sep, maxsplit)] for a non-empty [sep] and [maxsplit >= 0]:
    at most [maxsplit] cuts, each at the first occurrence of [sep] in
    what is left. *)
Fixpoint split_max (maxsplit : nat) (sep s : list A) : list (list A) :=
  match maxsplit with
  | O => [s]
  | S m =>
      match find sep s with
      | None => [s]
      | Some i => take i s :: split_max m sep (drop (i + length sep) s)
      end
  end.

(** [s.split(sep)] for a non-empty [sep]: no limit on the cuts. A string
    of length [n] has at most [n] occurrences that do not overlap. *)
Definition split (sep s : list A) : list (list A) :=
  split_max (length s) sep s.

(** [s.lstrip(chars)], [s.rstrip(chars)], [s.strip(chars)] *)
Fixpoint lstrip (chars s : list A) : list A :=
  match s with
  | [] => []
  | c :: s' => if bool_decide (c ∈ chars) then lstrip chars s' else s
  end.
Definition rstrip (chars s : list A) : list A :=
  reverse (lstrip chars (reverse s)).
Definition strip (chars s : list A) : list A :=
  rstrip chars (lstrip chars s).

(** [a, b = l]: unpacking into two targets. *)
Definition unpack2 (l : list (list A)) : result (list A * list A) :=
  match l with
  | [a; b] => Ok (a, b)
  | _ => Raise ValueError
  end.
End Seq.

(** [next(it)] on an iterator that yields the elements of [l]: the first
    element and the iterator advanced past it. *)
Definition next {A} (l : list A) : result (A * list A) :=
  match l with
  | x :: l' => Ok (x, l')
  | [] => Raise StopIteration
  end.

(** [l[0]] *)
Definition item0 {A} (l : list A) : result A :=
  match l with
  | x :: _ => Ok x
  | [] => Raise IndexError
  end.

(** [b.decode()]: strict UTF-8. The ranges are those of well-formed
    UTF-8: no overlong forms, no surrogates, nothing above U+10FFFF. *)
Definition between (lo hi x : N) : bool := ((lo <=? x) && (x <=? hi))%N.
Definition cont (x : N) : bool := between 128 191 x.
Definition low6 (x : N) : N := N.land x 63.

Fixpoint decode_utf8 (l : list N) : option (list N) :=
  match l with
  | [] => Some []
  | b0 :: l1 =>
      if (b0 <? 128)%N then cons b0 <$> decode_utf8 l1
      else
        match l1 with
        | [] => None
        | b1 :: l2 =>
            if between 194 223 b0 then
              if cont b1
              then cons (N.lor (N.shiftl (N.land b0 31) 6) (low6 b1)) <$> decode_utf8 l2
              else None
            else
              match l2 with
              | [] => None
              | b2 :: l3 =>
                  if between 224 239 b0 then
                    if (if (b0 =? 224)%N then between 160 191 b1
                        else if (b0 =? 237)%N then between 128 159 b1
                        else cont b1) && cont b2
                    then cons (N.lor (N.shiftl (N.land b0 15) 12)
                                 (N.lor (N.shiftl (low6 b1) 6) (low6 b2)))
                           <$> decode_utf8 l3
                    else None
                  else
                    match l3 with
                    | [] => None
                    | b3 :: l4 =>
                        if between 240 244 b0
                           && (if (b0 =? 240)%N then between 144 191 b1
                               else if (b0 =? 244)%N then between 128 143 b1
                               else cont b1)
                           && cont b2 && cont b3
                        then cons (N.lor (N.shiftl (N.land b0 7) 18)
                                     (N.lor (N.shiftl (low6 b1) 12)
                                        (N.lor (N.shiftl (low6 b2) 6) (low6 b3))))
                               <$> decode_utf8 l4
                        else None
                    end
              end
        end
  end.

Definition decode (b : bytes) : result str :=
  match decode_utf8 (Byte.to_N <$> b) with
  | Some s => Ok s
  | None => Raise UnicodeDecodeError
  end.

(** [s.encode()]: UTF-8; a surrogate cannot be encoded. *)
Definition encode_char (c : N) : option (list N) :=
  if (c <? 128)%N then Some [c]
  else if (c <? 2048)%N then
    Some [N.lor 192 (N.shiftr c 6); N.lor 128 (low6 c)]
  else if between 55296 57343 c then None
  else if (c <? 65536)%N then
    Some [N.lor 224 (N.shiftr c 12); N.lor 128 (low6 (N.shiftr c 6));
          N.lor 128 (low6 c)]
  else if (c <? 1114112)%N then
    Some [N.lor 240 (N.shiftr c 18); N.lor 128 (low6 (N.shiftr c 12));
          N.lor 128 (low6 (N.shiftr c 6)); N.lor 128 (low6 c)]
  else None.

Definition encode (s : str) : result bytes :=
  match mapM encode_char s ≫= λ l, mapM Byte.of_N (concat l) with
  | Some b => Ok b
  | None => Raise UnicodeEncodeError
  end.

(** [l[1:-1]] *)
Definition slice_1_m1 {A} (l : list A) : list A :=
  drop 1 (take (length l - 1) l).

(** [{k: v for k, v in l}]: every element is unpacked into two targets and
    stored; a later key overwrites an earlier one. *)
Fixpoint dict_of (acc : gmap str str) (l : list (list str)) : result (gmap str str) :=
  match l with
  | [] => Ok acc
  | p :: l' =>
      '(k, v) ← unpack2 p;
      dict_of (<[k := v]> acc) l'
  end.

End Py.
Import Py.

(** ** class HTTPRequest *)

Module HTTPRequest.

Record t := mk {
  method : str;
  endpoint : str;
  qparams : option (gmap str str);
  http_version : str;
  headers : gmap str str;
  body : bytes
}.

(** [{k:v for k, v in [p.split('=',1) for p in rest.split('&')]}] *)
Definition parse_query (rest : str) : result (gmap str str) :=
  dict_of ∅ (split_max 1 (U "=") <$> split (U "&") rest).

(** The [if '?' in uri] statement: the endpoint and the query parameters. *)
Definition parse_uri (uri : str) : result (str * option (gmap str str)) :=
  if contains (U "?") uri then
    '(endpoint, rest) ← unpack2 (split_max 1 (U "?") uri);
    q ← parse_query rest;
    Ok (endpoint, Some q)
  else Ok (uri, None).

(** The [try]/[except StopIteration] around the version scan. *)
Definition parse_version (words : list str) : str :=
  match next (filter (λ v, startswith (U "HTTP") v) words) with
  | Ok (v, _) => drop 5 v
  | Raise _ => U "1.1"
  end.

(** [{k:v for k,v in [line.split(': ', 1) for line in [*headerlines]]}] *)
Definition parse_headers (headerlines : list str) : result (gmap str str) :=
  dict_of ∅ (split_max 1 (U ": ") <$> headerlines).

Definition doParse (data : bytes) : result t :=
  '(head, body) ← unpack2 (split_max 1 (CRLF ++ CRLF) data);
  text ← decode head;
  '(request_line, headerlines) ← next (split crlf text);
  let words := split (U " ") request_line in
  method ← item0 words;
  '(uri, _) ← next (strip (U "/") <$> filter (λ v, startswith (U "/") v) words);
  '(endpoint, qparams) ← parse_uri uri;
  let http_version := parse_version words in
  headers ← parse_headers headerlines;
  Ok (mk method endpoint qparams http_version headers body).

(** The words of the request line, as [doParse] computes them. *)
Definition request_words (data : bytes) : result (list str) :=
  '(head, _) ← unpack2 (split_max 1 (CRLF ++ CRLF) data);
  text ← decode head;
  '(request_line, _) ← next (split crlf text);
  Ok (split (U " ") request_line).

(** The header lines [[*headerlines]], as [doParse] computes them. *)
Definition header_lines (data : bytes) : result (list str) :=
  '(head, _) ← unpack2 (split_max 1 (CRLF ++ CRLF) data);
  text ← decode head;
  '(_, headerlines) ← next (split crlf text);
  Ok headerlines.

(** The URI token: the first word that starts with [/], before
    [doParse] strips it. *)
Definition uri_token (data : bytes) : result str :=
  words ← request_words data;
  '(v, _) ← next (filter (λ v, startswith (U "/") v) words);
  Ok v.

End HTTPRequest.

(** ** class FormData *)

Module FormData.

Record t := mk {
  boundary : bytes;
  headers : option (gmap str str);
  formbody : option bytes
}.

(** [{k.decode():v.decode() for k,v in l}] *)
Fixpoint decode_headers (acc : gmap str str) (l : list (list bytes))
  : result (gmap str str) :=
  match l with
  | [] => Ok acc
  | h :: l' =>
      '(k, v) ← unpack2 h;
      k' ← decode k;
      v' ← decode v;
      decode_headers (<[k' := v']> acc) l'
  end.

(** [data.split(b'--' + self.boundary)[1:-1]] *)
Definition form_parts (boundary data : bytes) : list bytes :=
  slice_1_m1 (split (B "--" ++ boundary) data).

(** The body of the [for] loop: [self.formbody] is assigned first, then
    [self.headers]. *)
Definition doParse_part (self : t) (part : bytes) : result t :=
  '(tmpheaders, payload) ← unpack2 (split_max 1 (CRLF ++ CRLF) part);
  let self := mk (boundary self) (headers self) (Some payload) in
  hs ← decode_headers ∅ (split (B ": ") <$> drop 1 (split CRLF tmpheaders));
  Ok (mk (boundary self) (Some hs) (formbody self)).

Fixpoint doParse_loop (self : t) (parts : list bytes) : result t :=
  match parts with
  | [] => Ok self
  | part :: parts' =>
      self' ← doParse_part self part;
      doParse_loop self' parts'
  end.

Definition doParse (self : t) (data : bytes) : result t :=
  doParse_loop self (form_parts (boundary self) data).

(** [FormData(data, boundary)] *)
Definition init (data boundary : bytes) : result t :=
  doParse (mk boundary None None) data.

End FormData.

(** ** class HTTPServer: the isPrime handler and what it calls *)

Module HTTPServer.

(** The values stored in a response dictionary. *)
Inductive pyval :=
| PInt (z : Z)
| PBool (b : bool)
| PStr (s : str).

(** A dictionary in insertion order. *)
Definition odict (V : Type) := list (str * V).

(** [d[k] = v]: an existing key keeps its place. *)
Fixpoint setitem {V} (k : str) (v : V) (d : odict V) : odict V :=
  match d with
  | [] => [(k, v)]
  | (k', v') :: d' =>
      if decide (k' = k) then (k', v) :: d' else (k', v') :: setitem k v d'
  end.

(** [d[k]] *)
Fixpoint getitem {V} (k : str) (d : odict V) : result V :=
  match d with
  | [] => Raise KeyError
  | (k', v') :: d' => if decide (k' = k) then Ok v' else getitem k d'
  end.

(** [del d[k]] *)
Fixpoint delitem {V} (k : str) (d : odict V) : result (odict V) :=
  match d with
  | [] => Raise KeyError
  | (k', v') :: d' =>
      if decide (k' = k) then Ok d' else cons (k', v') <$> delitem k d'
  end.

(** [BLANK_LINE = b'\r\n'] *)
Definition BLANK_LINE : bytes := CRLF.

(** [self.headers] and [self.status_codes] as [__init__] sets them. *)
Definition self_headers : odict str :=
  [(U "Server", U "KeremenciServer"); (U "Content-Type", U "application/json")].

Definition status_codes : gmap Z str :=
  {[ 200%Z := U "OK"; 404%Z := U "Not Found"; 400%Z := U "Bad Request";
     500%Z := U "Internal Server Error" ]}.

(** [str(z)] for an [int]. *)
Definition str_of_int (z : Z) : str := U (pretty z).

Definition response_line (status_code : pyval) : result bytes :=
  match status_code with
  | PInt z =>
      match status_codes !! z with
      | Some reason =>
          encode (U "HTTP/1.1 " ++ str_of_int z ++ U " " ++ reason ++ crlf)
      | None => Raise KeyError
      end
  | _ => Raise KeyError
  end.

(** [headers_copy.update(extra_headers)] *)
Definition update {V} (d extra : odict V) : odict V :=
  foldl (λ d kv, setitem kv.1 kv.2 d) d extra.

Definition response_headers (extra_headers : option (odict str)) : result bytes :=
  let headers_copy :=
    match extra_headers with
    | Some extra => update self_headers extra
    | None => self_headers
    end in
  encode (foldl (λ headers h, headers ++ h.1 ++ U ": " ++ h.2 ++ crlf) [] headers_copy).

(** [json.dumps(d)] for a dictionary of [int], [bool] and [str] values
    under [str] keys. The keys and [str] values that the handler stores
    are ASCII constants without quotes, backslashes or control
    characters, which [json.dumps] writes unchanged between double
    quotes. *)
Definition json_str (s : str) : str :=
  latin1 [DQUOTE] ++ s ++ latin1 [DQUOTE].

Definition json_val (v : pyval) : str :=
  match v with
  | PInt z => str_of_int z
  | PBool true => U "true"
  | PBool false => U "false"
  | PStr s => json_str s
  end.

Fixpoint json_items (d : odict pyval) : str :=
  match d with
  | [] => []
  | [(k, v)] => json_str k ++ U ": " ++ json_val v
  | (k, v) :: d' => json_str k ++ U ": " ++ json_val v ++ U ", " ++ json_items d'
  end.

Definition json_dumps (d : odict pyval) : str := U "{" ++ json_items d ++ U "}".

(** [except (KeyError, ValueError, TypeError)]: the two Unicode errors are
    subclasses of [ValueError]. *)
Definition caught (e : exn) : bool :=
  match e with
  | KeyError | ValueError | TypeError
  | UnicodeDecodeError | UnicodeEncodeError => true
  | StopIteration | IndexError | OverflowError => false
  end.

(** [request.qparams['number']]: subscripting [None] is a [TypeError]. *)
Definition qparams_number (request : HTTPRequest.t) : result str :=
  match HTTPRequest.qparams request with
  | None => Raise TypeError
  | Some q =>
      match q !! U "number" with
      | Some s => Ok s
      | None => Raise KeyError
      end
  end.

Section Handlers.
(** [int(s)] for a [str]: the built-in is taken as it is. *)
Variable int_of_str : str → result Z.

(** [int(sqrt(num))] where the binary64 computation is not exact: for
    [num] of magnitude [2^52] and more the result depends on rounding
    and, further out, on the conversion to [float] overflowing. *)
Variable int_sqrt_far : Z → result Z.

(** [int(sqrt(num))]: [math.sqrt] raises [ValueError] on a negative
    argument; from [0] up to [2^52] the float computation gives the
    integer square root. *)
Definition int_sqrt (num : Z) : result Z :=
  if (0 <=? num)%Z && (num <? 2 ^ 52)%Z then Ok (Z.sqrt num)
  else if (- 2 ^ 52 <? num)%Z && (num <? 0)%Z then Raise ValueError
  else int_sqrt_far num.

(** The reply of the [except] branch. *)
Definition invalid_parameter (response : odict pyval) : result bytes :=
  let response := setitem (U "status") (PInt 400) response in
  status ← getitem (U "status") response;
  response_line ← response_line status;
  response_headers ← response_headers None;
  let response := setitem (U "message") (PStr (U "Invalid parameter")) response in
  response ← delitem (U "status") response;
  respbody ← encode (json_dumps response);
  Ok (response_line ++ response_headers ++ BLANK_LINE ++ respbody).

Definition handle_is_prime (request : HTTPRequest.t) : result bytes :=
  let response := setitem (U "status") (PInt 200) [] in
  match qparams_number request ≫= int_of_str with
  | Raise e => if caught e then invalid_parameter response else Raise e
  | Ok num =>
      let result := true in
      stop ← int_sqrt num;
      let result :=
        foldl (λ result i, if (num `mod` i =? 0)%Z then false else result)
          result (seqZ 2 (stop + 1 - 2)) in
      status ← getitem (U "status") response;
      response_line ← response_line status;
      response_headers ← response_headers None;
      let response := setitem (U "number") (PInt num) response in
      let response := setitem (U "isPrime") (PBool result) response in
      response ← delitem (U "status") response;
      respbody ← encode (json_dumps response);
      Ok (response_line ++ response_headers ++ BLANK_LINE ++ respbody)
  end.
End Handlers.

(** A decimal reader for the examples: an optional sign and ASCII digits,
    on which it agrees with [int]. *)
Definition digit (c : N) : option Z :=
  if between 48 57 c then Some (Z.of_N c - 48)%Z else None.

Definition int_of_digits (s : str) : result Z :=
  match s with
  | [] => Raise ValueError
  | _ =>
      match mapM digit s with
      | Some ds => Ok (foldl (λ acc d, 10 * acc + d)%Z 0%Z ds)
      | None => Raise ValueError
      end
  end.

Definition int_of_decimal (s : str) : result Z :=
  match s with
  | 45%N :: s' => Z.opp <$> int_of_digits s'
  | 43%N :: s' => int_of_digits s'
  | _ => int_of_digits s
  end.

(** *** [json.dumps] with its escapes

    [json.dumps] keeps the characters from the space to [~] except the
    double quote and the backslash; it writes the short escapes for the
    two and for [\b], [\f], [\n], [\r], [\t], and [\uXXXX] (a surrogate
    pair above U+FFFF) for every other character. *)

Definition hex_digit (d : N) : N :=
  if (d <? 10)%N then (48 + d)%N else (87 + d)%N.

(** ['\\u{0:04x}'.format(n)] *)
Definition u_escape (n : N) : str :=
  [92%N; 117%N;
   hex_digit (N.land (N.shiftr n 12) 15); hex_digit (N.land (N.shiftr n 8) 15);
   hex_digit (N.land (N.shiftr n 4) 15); hex_digit (N.land n 15)].

Definition json_escape_char (c : N) : str :=
  if (c =? 34)%N then [92%N; 34%N]
  else if (c =? 92)%N then [92%N; 92%N]
  else if (c =? 8)%N then [92%N; 98%N]
  else if (c =? 12)%N then [92%N; 102%N]
  else if (c =? 10)%N then [92%N; 110%N]
  else if (c =? 13)%N then [92%N; 114%N]
  else if (c =? 9)%N then [92%N; 116%N]
  else if between 32 126 c then [c]
  else if (c <? 65536)%N then u_escape c
  else
    let n := (c - 65536)%N in
    u_escape (N.lor 55296 (N.land (N.shiftr n 10) 1023))
      ++ u_escape (N.lor 56320 (N.land n 1023)).

Definition json_str_esc (s : str) : str :=
  latin1 [DQUOTE] ++ concat (json_escape_char <$> s) ++ latin1 [DQUOTE].

Definition json_val_esc (v : pyval) : str :=
  match v with
  | PInt z => str_of_int z
  | PBool true => U "true"
  | PBool false => U "false"
  | PStr s => json_str_esc s
  end.

Fixpoint json_items_esc (d : odict pyval) : str :=
  match d with
  | [] => []
  | [(k, v)] => json_str_esc k ++ U ": " ++ json_val_esc v
  | (k, v) :: d' =>
      json_str_esc k ++ U ": " ++ json_val_esc v ++ U ", " ++ json_items_esc d'
  end.

Definition json_dumps_esc (d : odict pyval) : str :=
  U "{" ++ json_items_esc d ++ U "}".

(** *** [os.path.join(a, b)] on POSIX *)

Definition endswith {A} `{EqDecision A} (suf s : list A) : bool :=
  bool_decide (suf `suffix_of` s).

Definition path_join (a b : str) : str :=
  if startswith (U "/") b then b
  else if bool_decide (a = []) || endswith (U "/") a then a ++ b
  else a ++ U "/" ++ b.

(** *** The handlers that use the upload directory, and the dispatcher *)

(** What a handler call ends in: the reply and the file system it leaves,
    an exception of the handler's own code that nothing catches, or an
    [OSError] out of an [os] call or of [open]. *)
Inductive outcome (fs : Type) :=
| Reply (response : bytes) (files : fs)
| Uncaught (e : exn)
| OSError.
Arguments Reply {fs} response files.
Arguments Uncaught {fs} e.
Arguments OSError {fs}.

Definition reply {fs} (r : result bytes) (files : fs) : outcome fs :=
  match r with
  | Ok response => Reply response files
  | Raise e => Uncaught e
  end.

(** [request.qparams[k]] *)
Definition qparams_item (k : str) (request : HTTPRequest.t) : result str :=
  match HTTPRequest.qparams request with
  | None => Raise TypeError
  | Some q =>
      match q !! k with
      | Some s => Ok s
      | None => Raise KeyError
      end
  end.

(** The replies that only hold a message: the status is stored, the two
    header blocks are built, the message is stored, the status is deleted
    and the dictionary is dumped. *)
Definition message_reply (response : odict pyval) (status : Z) (message : str)
  : result bytes :=
  let response := setitem (U "status") (PInt status) response in
  status ← getitem (U "status") response;
  response_line ← response_line status;
  response_headers ← response_headers None;
  let response := setitem (U "message") (PStr message) response in
  response ← delitem (U "status") response;
  respbody ← encode (json_dumps_esc response);
  Ok (response_line ++ response_headers ++ BLANK_LINE ++ respbody).

Section Files.
(** The file system: its states, and the calls of [os], [open] and
    [mimetypes] as the handlers make them. [None] stands for a call that
    raises [OSError]. *)
Context {fs : Type}.
Variable uploaddir : str.
Variable os_listdir : str → fs → option (list str).
Variable os_remove : str → fs → option fs.
Variable os_rename : str → str → fs → option fs.
(** [open(path, 'rb').read()], after [os.path.getsize(path)]: the content,
    whose length is the size. *)
Variable read_file : str → fs → option bytes.
(** [mimetypes.guess_type(path)[0]] *)
Variable guess_type : str → option str.
(** The branch of [handle_upload] for a multipart request, up to its
    reply: it calls [mimetypes], [os.path] and [open]. *)
Variable upload_multipart : HTTPRequest.t → fs → outcome fs.
Variable int_of_str : str → result Z.
Variable int_sqrt_far : Z → result Z.

Definition handle_upload (request : HTTPRequest.t) (files : fs) : outcome fs :=
  let response := setitem (U "status") (PInt 400) [] in
  if match HTTPRequest.headers request !! U "Content-Type" with
     | Some v => contains (U "multipart/form-data") v
     | None => false
     end
  then upload_multipart request files
  else
    reply
      (status ← getitem (U "status") response;
       response_line ← response_line status;
       response_headers ← response_headers None;
       let response :=
         setitem (U "message") (PStr (U "An error occurred")) response in
       response ← delitem (U "status") response;
       respbody ← encode (json_dumps_esc response);
       Ok (response_line ++ response_headers ++ BLANK_LINE ++ respbody))
      files.

Definition handle_rename (request : HTTPRequest.t) (files : fs) : outcome fs :=
  let response := setitem (U "status") (PInt 500) [] in
  match (oldfn ← qparams_item (U "oldFileName") request;
         newfn ← qparams_item (U "newName") request;
         Ok (oldfn, newfn)) with
  | Raise KeyError => reply (message_reply response 400 (U "Invalid parameters")) files
  | Raise e => Uncaught e
  | Ok (oldfn, newfn) =>
      match os_listdir uploaddir files with
      | None => OSError
      | Some names =>
          if bool_decide (oldfn ∉ names)
          then reply (message_reply response 200 (U "File Not Found")) files
          else
            let oldpath := path_join (U "files") oldfn in
            let newpath := path_join (U "files") newfn in
            match os_rename oldpath newpath files with
            | None => OSError
            | Some files' =>
                reply
                  (status ← getitem (U "status") response;
                   response_line ← response_line status;
                   response_headers ← response_headers None;
                   let response :=
                     setitem (U "message")
                       (PStr (U "Filename successfully changed")) response in
                   let response := setitem (U "oldpath") (PStr oldpath) response in
                   let response := setitem (U "newpath") (PStr newpath) response in
                   response ← delitem (U "status") response;
                   respbody ← encode (json_dumps_esc response);
                   Ok (response_line ++ response_headers ++ BLANK_LINE ++ respbody))
                  files'
            end
      end
  end.

Definition handle_remove (request : HTTPRequest.t) (files : fs) : outcome fs :=
  let response := setitem (U "status") (PInt 500) [] in
  match qparams_item (U "fileName") request with
  | Raise KeyError =>
      reply (message_reply response 400 (U "Missing filename parameter")) files
  | Raise e => Uncaught e
  | Ok fn =>
      match os_listdir uploaddir files with
      | None => OSError
      | Some names =>
          if bool_decide (fn ∉ names)
          then reply (message_reply response 200 (U "File Not Found")) files
          else
            match os_remove (path_join uploaddir fn) files with
            | None => OSError
            | Some files' =>
                let response :=
                  setitem (U "message") (PStr (U "File successfully deleted"))
                    response in
                let response :=
                  setitem (U "filepath") (PStr (path_join (U "files") fn)) response in
                reply
                  (status ← getitem (U "status") response;
                   response_line ← response_line status;
                   response_headers ← response_headers None;
                   response ← delitem (U "status") response;
                   respbody ← encode (json_dumps_esc response);
                   Ok (response_line ++ response_headers ++ BLANK_LINE ++ respbody))
                  files'
            end
      end
  end.

(** The extra headers of a download, each value as ['%s'] writes it. *)
Definition download_headers (filename filepath : str) (filesize : nat) : odict str :=
  [(U "Content-Disposition",
    U "attachment; filename=" ++ latin1 [DQUOTE] ++ filename ++ latin1 [DQUOTE]);
   (U "Content-Type",
    match guess_type filepath with Some t => t | None => U "None" end);
   (U "Content-Transfer-Encoding", U "binary");
   (U "Content-Length", str_of_int (Z.of_nat filesize))].

Definition handle_download (request : HTTPRequest.t) (files : fs) : outcome fs :=
  let response := setitem (U "status") (PInt 500) [] in
  match qparams_item (U "fileName") request with
  | Raise KeyError =>
      reply (message_reply response 400 (U "Missing filename parameter")) files
  | Raise e => Uncaught e
  | Ok filename =>
      match os_listdir uploaddir files with
      | None => OSError
      | Some names =>
          if bool_decide (filename ∉ names)
          then reply (message_reply response 200 (U "File Not Found")) files
          else
            let filepath := path_join uploaddir filename in
            match read_file filepath files with
            | None => OSError
            | Some respbody =>
                let extra_headers :=
                  download_headers filename filepath (length respbody) in
                let response := setitem (U "status") (PInt 200) response in
                reply
                  (status ← getitem (U "status") response;
                   response_line ← response_line status;
                   response_headers ← response_headers (Some extra_headers);
                   Ok (response_line ++ response_headers ++ BLANK_LINE ++ respbody))
                  files
            end
      end
  end.

(** [self.handlers] *)
Definition handlers : odict (HTTPRequest.t → fs → outcome fs) :=
  [(U "GET-isPrime", λ request files,
      reply (handle_is_prime int_of_str int_sqrt_far request) files);
   (U "POST-upload", handle_upload);
   (U "PUT-rename", handle_rename);
   (U "DELETE-remove", handle_remove);
   (U "GET-download", handle_download)].

Definition handle_request (data : bytes) (files : fs) : outcome fs :=
  match HTTPRequest.doParse data with
  | Raise e => Uncaught e
  | Ok request =>
      let key := HTTPRequest.method request ++ U "-" ++ HTTPRequest.endpoint request in
      match getitem key handlers with
      | Raise _ => reply (message_reply [] 404 (U "Not Found")) files
      | Ok handler => handler request files
      end
  end.

End Files.

End HTTPServer.

(** ** class TCPServer: reading a connection *)

Module TCPServer.

(** What a call of [sock.recv(BUFF_SIZE)] gives: bytes (none when the peer
    has closed), or [TimeoutError] after the second set by [settimeout]. *)
Inductive recv_result :=
| Chunk (chunk : bytes)
| Timeout.

(** The [while True] loop of [recvall]; [sock i] is what the call number
    [i] gives. A peer that never pauses keeps the loop going for ever:
    [fuel] bounds the turns, and [None] is a loop that has not ended
    within them. *)
Fixpoint recvall_loop (fuel : nat) (sock : nat → recv_result) (i : nat)
    (fragments : list bytes) : option bytes :=
  match fuel with
  | O => None
  | S fuel' =>
      let chunk :=
        match sock i with
        | Chunk c => Some c
        | Timeout => None
        end in
      match chunk with
      | None => Some (concat fragments)
      | Some c =>
          if bool_decide (c = []) then Some (concat fragments)
          else recvall_loop fuel' sock (S i) (fragments ++ [c])
      end
  end.

Definition recvall (fuel : nat) (sock : nat → recv_result) : option bytes :=
  recvall_loop fuel sock 0 [].

End TCPServer.

(** ** A file system for the examples

    The upload directory as a list of named files; the other directories
    do not exist. *)

Module Disk.

Definition fs := list (str * bytes).

Definition uploaddir : str := U "/srv/files".

Definition os_listdir (path : str) (files : fs) : option (list str) :=
  if decide (path = uploaddir) then Some (files.*1) else None.

(** The name of the file of the upload directory that [path] names. *)
Definition entry (prefix path : str) (files : fs) : option str :=
  if startswith prefix path && bool_decide (drop (length prefix) path ∈ files.*1)
  then Some (drop (length prefix) path)
  else None.

Definition os_remove (path : str) (files : fs) : option fs :=
  name ← entry (uploaddir ++ U "/") path files;
  Some (filter (λ f, f.1 ≠ name) files).

(** The server runs in the directory above [files]. *)
Definition os_rename (old new : str) (files : fs) : option fs :=
  name ← entry (U "files/") old files;
  if startswith (U "files/") new
  then Some ((λ f, if decide (f.1 = name) then (drop 6 new, f.2) else f) <$> files)
  else None.

Definition read_file (path : str) (files : fs) : option bytes :=
  name ← entry (uploaddir ++ U "/") path files;
  snd <$> head (filter (λ f, f.1 = name) files).

Definition guess_type (path : str) : option str :=
  if HTTPServer.endswith (U ".txt") path then Some (U "text/plain") else None.

Definition upload_multipart (request : HTTPRequest.t) (files : fs)
  : HTTPServer.outcome fs := HTTPServer.OSError.

Definition files : fs := [(U "a.txt", B "alpha"); (U "b.bin", [x00; xff])].

Definition request (method endpoint : string) (qparams : option (gmap str str))
  : HTTPRequest.t :=
  HTTPRequest.mk (U method) (U endpoint) qparams (U "1.1") ∅ [].

End Disk.

(** ** The path as the specification words it *)

(** The part of the URI token before any [?], with its leading and trailing
    [/] removed. *)
Definition spec_path (v : str) : str :=
  match split_max 1 (U "?") v with
  | p :: _ => strip (U "/") p
  | [] => []
  end.

(** ** The multipart bodies that clients send *)

(** A [multipart/form-data] body as RFC 2046 frames it: every part is the
    delimiter line [--boundary], its header lines, an empty line and the
    payload; the line break after the payload belongs to the delimiter
    that follows; [--boundary--] closes the body. *)
Definition multipart_part (boundary : bytes) (part : list bytes * bytes) : bytes :=
  B "--" ++ boundary ++ CRLF
    ++ concat ((λ h, h ++ CRLF) <$> part.1) ++ CRLF
    ++ part.2 ++ CRLF.

Definition multipart_body (boundary : bytes) (parts : list (list bytes * bytes)) : bytes :=
  concat (multipart_part boundary <$> parts) ++ B "--" ++ boundary ++ B "--" ++ CRLF.

(** [Content-Disposition: form-data; name="file"; filename="..."] *)
Definition disposition_value (filename : bytes) : bytes :=
  B "form-data; name=" ++ quoted (B "file") ++ B "; filename=" ++ quoted filename.

Definition disposition (filename : bytes) : bytes :=
  B "Content-Disposition: " ++ disposition_value filename.

(** * Properties *)

(** ** The built-ins *)

Section SeqFacts.
Context {A : Type} `{EqDecision A}.
Implicit Types sub sep s : list A.

Lemma startswith_true p s : startswith p s = true ↔ p `prefix_of` s.
Proof. unfold startswith. apply bool_decide_eq_true. Qed.

Lemma startswith_false p s : startswith p s = false ↔ ¬ p `prefix_of` s.
Proof. unfold startswith. apply bool_decide_eq_false. Qed.

(** [find] answers [None] exactly on the strings without an occurrence. *)
Lemma find_None sub s :
  find sub s = None ↔ ¬ ∃ pre post, s = pre ++ sub ++ post.
Proof.
  induction s as [|a s IH]; simpl.
  - destruct (startswith sub []) eqn:E.
    + apply startswith_true in E. destruct E as [k Hk].
      split; [discriminate|]. intros Hn. exfalso. apply Hn.
      exists [], k. exact Hk.
    + split; [|done]. intros _ (pre & post & Hs).
      apply startswith_false in E. apply E.
      symmetry in Hs. apply app_eq_nil in Hs as [-> Hs].
      apply app_eq_nil in Hs as [-> _]. by exists [].
  - destruct (startswith sub (a :: s)) eqn:E.
    + apply startswith_true in E. destruct E as [k Hk].
      split; [discriminate|]. intros Hn. exfalso. apply Hn.
      exists [], k. exact Hk.
    + apply startswith_false in E.
      rewrite fmap_None, IH. split.
      * intros Hn (pre & post & Hs). destruct pre as [|b pre].
        -- apply E. exists post. exact Hs.
        -- simpl in Hs. injection Hs as _ Hs. apply Hn. by exists pre, post.
      * intros Hn (pre & post & Hs). apply Hn.
        exists (a :: pre), post. by rewrite Hs.
Qed.

(** When [find] answers [Some i], the occurrence starts at [i]. *)
Lemma find_Some sub s i :
  find sub s = Some i →
  s = take i s ++ sub ++ drop (i + length sub) s.
Proof.
  revert i. induction s as [|a s IH]; intros i; simpl.
  - destruct (startswith sub []) eqn:E; [|discriminate].
    intros [= <-]. apply startswith_true in E as [k Hk].
    symmetry in Hk. apply app_eq_nil in Hk as [-> ->]. done.
  - destruct (startswith sub (a :: s)) eqn:E.
    + intros [= <-]. apply startswith_true in E as [k Hk].
      simpl. rewrite Hk at 1. f_equal. rewrite Hk.
      by rewrite drop_app_length.
    + destruct (find sub s) as [j|] eqn:Ej; [|discriminate].
      simpl. intros [= <-]. simpl. f_equal. by apply IH.
Qed.

Lemma find_Some_bound sub s i :
  find sub s = Some i → i + length sub ≤ length s.
Proof.
  revert i. induction s as [|a s IH]; intros i; simpl.
  - destruct (startswith sub []) eqn:E; [|discriminate].
    intros [= <-]. apply startswith_true in E as [k Hk].
    symmetry in Hk. apply app_eq_nil in Hk as [-> ->]. done.
  - destruct (startswith sub (a :: s)) eqn:E.
    + intros [= <-]. apply startswith_true in E as [k Hk].
      apply (f_equal length) in Hk. rewrite length_app in Hk.
      simpl in *. lia.
    + destruct (find sub s) as [j|] eqn:Ej; [|discriminate].
      simpl. intros [= <-]. specialize (IH j eq_refl). lia.
Qed.

Lemma split_max_not_nil n sep s : split_max n sep s ≠ [].
Proof. destruct n; simpl; [done|]. by destruct (find sep s). Qed.

Lemma split_not_nil sep s : split sep s ≠ [].
Proof. apply split_max_not_nil. Qed.

(** A limit beyond the length of the string changes nothing: this is why
    [split] stands for the call without [maxsplit]. *)
Lemma split_max_enough sep s n m :
  sep ≠ [] → length s ≤ n → length s ≤ m →
  split_max n sep s = split_max m sep s.
Proof.
  intros Hsep.
  assert (Hnil : ∀ k, split_max k sep [] = [[]]).
  { intros [|k]; [done|]. cbn [split_max].
    destruct (find sep []) eqn:E; [|done].
    apply find_Some_bound in E. destruct sep; [done|simpl in E; lia]. }
  revert s m.
  induction n as [|n IH]; intros s m Hn Hm.
  - destruct s; [|simpl in Hn; lia]. by rewrite !Hnil.
  - destruct m as [|m].
    + destruct s; [|simpl in Hm; lia]. by rewrite !Hnil.
    + cbn [split_max]. destruct (find sep s) as [i|] eqn:E; [|done].
      f_equal. pose proof (find_Some_bound _ _ _ E) as Hb.
      assert (0 < length sep) by (destruct sep; [done|simpl; lia]).
      apply IH; rewrite length_drop; lia.
Qed.

(** [s.split(sep, 1)] has two elements exactly when [sep] occurs. *)
Lemma split_max_1_None sep s :
  (¬ ∃ pre post, s = pre ++ sep ++ post) → split_max 1 sep s = [s].
Proof. intros Hn. simpl. apply find_None in Hn. by rewrite Hn. Qed.

End SeqFacts.

(** ** The error monad *)

Lemma bind_Ok {A C} (m : result A) (f : A → result C) c :
  m ≫= f = Ok c ↔ ∃ a, m = Ok a ∧ f a = Ok c.
Proof.
  destruct m as [a|e]; simpl; split.
  - intros Hf. by exists a.
  - by intros (a' & [= <-] & Hf).
  - discriminate.
  - by intros (a' & [=] & _).
Qed.

Lemma bind_Raise {A C} (m : result A) (f : A → result C) e :
  m ≫= f = Raise e ↔ m = Raise e ∨ ∃ a, m = Ok a ∧ f a = Raise e.
Proof.
  destruct m as [a|e']; simpl; split.
  - intros Hf. right. by exists a.
  - intros [[=]|(a' & [= <-] & Hf)]. done.
  - intros [= <-]. by left.
  - intros [[= <-]|(a' & [=] & _)]. done.
Qed.

Lemma unpack2_Raise {A} (l : list (list A)) e :
  unpack2 l = Raise e → e = ValueError.
Proof. destruct l as [|a [|b [|c l]]]; simpl; congruence. Qed.

Lemma unpack2_Ok {A} (l : list (list A)) a b :
  unpack2 l = Ok (a, b) ↔ l = [a; b].
Proof. destruct l as [|a' [|b' [|c l]]]; simpl; split; congruence. Qed.

Lemma decode_Raise b e : decode b = Raise e → e = UnicodeDecodeError.
Proof. unfold decode. destruct (decode_utf8 _); congruence. Qed.

Lemma dict_of_Raise acc l e : dict_of acc l = Raise e → e = ValueError.
Proof.
  revert acc. induction l as [|p l IH]; intros acc; simpl; [discriminate|].
  destruct (unpack2 p) as [[k v]|e'] eqn:E; simpl.
  - apply IH.
  - intros [= <-]. by apply unpack2_Raise in E.
Qed.

Lemma filter_startswith_nil {A} `{EqDecision A} (p : list A) (l : list (list A)) :
  filter (λ v, startswith p v) l = [] ↔ Forall (λ w, startswith p w = false) l.
Proof.
  induction l as [|w l IH]; [by split|].
  destruct (startswith p w) eqn:E.
  - rewrite filter_cons_True by (by rewrite E). split; [discriminate|].
    intros Hf. apply Forall_cons in Hf as [Hw _]. congruence.
  - rewrite filter_cons_False by (rewrite E; intros []).
    rewrite IH, Forall_cons. tauto.
Qed.

Lemma contains_singleton {A} `{EqDecision A} (c : A) (s : list A) :
  contains [c] s = true ↔ c ∈ s.
Proof.
  unfold contains. induction s as [|a s IH]; simpl.
  - rewrite elem_of_nil. split; [|done].
    destruct (startswith [c] []) eqn:E; [|discriminate].
    apply startswith_true in E as [k Hk]. discriminate.
  - destruct (startswith [c] (a :: s)) eqn:E.
    + apply startswith_true in E as [k [= -> _]]. split; [|done].
      intros _. apply elem_of_cons. by left.
    + apply startswith_false in E.
      rewrite elem_of_cons. destruct (find [c] s); simpl in *.
      * split; [|done]. intros _. right. by apply IH.
      * split; [discriminate|]. intros [->|Hin].
        -- exfalso. apply E. by exists s.
        -- by apply IH.
Qed.

Lemma elem_of_lstrip {A} `{EqDecision A} (c : A) (chars s : list A) :
  c ∉ chars → c ∈ lstrip chars s ↔ c ∈ s.
Proof.
  intros Hc. induction s as [|a s IH]; simpl; [done|].
  case_bool_decide as Ha; [|done].
  rewrite IH, elem_of_cons. split; [tauto|]. intros [->|]; [done|tauto].
Qed.

Lemma elem_of_strip {A} `{EqDecision A} (c : A) (chars s : list A) :
  c ∉ chars → c ∈ strip chars s ↔ c ∈ s.
Proof.
  intros Hc. unfold strip, rstrip.
  by rewrite elem_of_reverse, elem_of_lstrip, elem_of_reverse, elem_of_lstrip.
Qed.

(** ** The request parser *)

Lemma parse_uri_Raise uri e : HTTPRequest.parse_uri uri = Raise e → e = ValueError.
Proof.
  unfold HTTPRequest.parse_uri. destruct (contains _ uri); [|discriminate].
  intros Hb. apply bind_Raise in Hb as [Hb|([ep rest] & _ & Hb)].
  - by apply unpack2_Raise in Hb.
  - apply bind_Raise in Hb as [Hb|(q & _ & [=])].
    by apply dict_of_Raise in Hb.
Qed.

(** What a successful parse went through: the URI token was found, and the
    endpoint and the query parameters come from the stripped token. *)
Lemma doParse_Ok_uri data r :
  HTTPRequest.doParse data = Ok r →
  ∃ v, HTTPRequest.uri_token data = Ok v
     ∧ HTTPRequest.parse_uri (strip (U "/") v)
       = Ok (HTTPRequest.endpoint r, HTTPRequest.qparams r).
Proof.
  unfold HTTPRequest.doParse, HTTPRequest.uri_token, HTTPRequest.request_words.
  intros Hp.
  apply bind_Ok in Hp as ([head body] & -> & Hp); simpl.
  apply bind_Ok in Hp as (text & -> & Hp); simpl.
  apply bind_Ok in Hp as ([request_line headerlines] & -> & Hp); simpl.
  apply bind_Ok in Hp as (method & _ & Hp).
  apply bind_Ok in Hp as ([uri others] & Hn & Hp).
  apply bind_Ok in Hp as ([ep q] & Hu & Hp).
  apply bind_Ok in Hp as (hs & _ & [= <-]).
  simpl. unfold str in *.
  destruct (filter _ (split (U " ") request_line)) as [|v vs]; [discriminate|].
  simpl in Hn. injection Hn as <- <-. by exists v.
Qed.

(** The endpoint is cut at the first [?] of the token after the slashes at
    both ends of the whole token have been removed. *)
Lemma doParse_endpoint data r :
  HTTPRequest.doParse data = Ok r →
  ∃ v, HTTPRequest.uri_token data = Ok v
     ∧ [HTTPRequest.endpoint r] = take 1 (split_max 1 (U "?") (strip (U "/") v)).
Proof.
  intros Hp. apply doParse_Ok_uri in Hp as (v & Hv & Hu).
  exists v. split; [done|].
  unfold HTTPRequest.parse_uri in Hu.
  destruct (contains (U "?") (strip (U "/") v)) eqn:Ec.
  - apply bind_Ok in Hu as ([ep rest] & Hs & Hu).
    apply bind_Ok in Hu as (q & _ & [= <- _]).
    apply unpack2_Ok in Hs. by rewrite Hs.
  - injection Hu as <- _. unfold contains in Ec. simpl.
    by destruct (find (U "?") (strip (U "/") v)).
Qed.

(** Without a query string the endpoint is the path of the specification. *)
Lemma doParse_endpoint_no_query data r v :
  HTTPRequest.doParse data = Ok r →
  HTTPRequest.uri_token data = Ok v →
  contains (U "?") v = false →
  HTTPRequest.endpoint r = spec_path v.
Proof.
  intros Hp Hv Hc. apply doParse_Ok_uri in Hp as (v' & Hv' & Hu).
  rewrite Hv in Hv'. injection Hv' as <-.
  assert (Hq : 63%N ∉ v).
  { intros Hin. apply (contains_singleton 63%N) in Hin.
    change (U "?") with [63%N] in Hc. congruence. }
  assert (Hq' : contains (U "?") (strip (U "/") v) = false).
  { apply not_true_is_false. change (U "?") with [63%N].
    rewrite contains_singleton, elem_of_strip; [done|].
    change (U "/") with [47%N]. rewrite list_elem_of_singleton. done. }
  unfold HTTPRequest.parse_uri in Hu. rewrite Hq' in Hu.
  injection Hu as <- _. unfold spec_path. unfold contains in Hc. simpl.
  by destruct (find (U "?") v).
Qed.

(** C1. Parsing [GET /isPrime?number=17 HTTP/1.1\r\nHost: x\r\n\r\n] gives
    the path [isPrime], the query parameters [{number: 17}], the version
    [1.1], the headers [{Host: x}] and an empty body (and the method
    [GET]). *)
Theorem doParse_isPrime_request :
  HTTPRequest.doParse
    (B "GET /isPrime?number=17 HTTP/1.1" ++ CRLF ++ B "Host: x" ++ CRLF ++ CRLF)
  = Ok {| HTTPRequest.method := U "GET";
          HTTPRequest.endpoint := U "isPrime";
          HTTPRequest.qparams := Some {[ U "number" := U "17" ]};
          HTTPRequest.http_version := U "1.1";
          HTTPRequest.headers := {[ U "Host" := U "x" ]};
          HTTPRequest.body := [] |}.
Proof. vm_compute. reflexivity. Qed.

(** C6. A byte sequence without any occurrence of [\r\n\r\n] is not parsed:
    unpacking the one-element result of the split raises [ValueError]. *)
Theorem doParse_no_blank_line (data : bytes) :
  (¬ ∃ pre post, data = pre ++ (CRLF ++ CRLF) ++ post) →
  HTTPRequest.doParse data = Raise ValueError.
Proof.
  intros Hn. unfold HTTPRequest.doParse.
  by rewrite (split_max_1_None _ _ Hn).
Qed.

Lemma doParse_no_blank_line_witness :
  (¬ ∃ pre post, B "GET / HTTP/1.1" ++ CRLF = pre ++ (CRLF ++ CRLF) ++ post)
  ∧ HTTPRequest.doParse (B "GET / HTTP/1.1" ++ CRLF) = Raise ValueError.
Proof.
  assert (H : ¬ ∃ pre post,
             B "GET / HTTP/1.1" ++ CRLF = pre ++ (CRLF ++ CRLF) ++ post).
  { apply find_None. vm_compute. reflexivity. }
  split; [exact H|]. exact (doParse_no_blank_line _ H).
Defined.

(** C3. The path of a request whose URI token carries a query string keeps
    the [/] that ends its path component: [doParse] strips the slashes at
    the two ends of the whole token and only then cuts it at [?]. For
    [GET /isPrime/?number=17 HTTP/1.1] the endpoint is [isPrime/], where the
    specification's path is [isPrime]. *)
Theorem doParse_path_keeps_slash_before_query :
  let data :=
    B "GET /isPrime/?number=17 HTTP/1.1" ++ CRLF ++ B "Host: x" ++ CRLF ++ CRLF in
  HTTPRequest.uri_token data = Ok (U "/isPrime/?number=17")
  ∧ HTTPRequest.endpoint <$> HTTPRequest.doParse data = Ok (U "isPrime/")
  ∧ spec_path (U "/isPrime/?number=17") = U "isPrime".
Proof. repeat split; vm_compute; reflexivity. Qed.

(** C7. [doParse] raises [StopIteration] exactly when the request line was
    reached (the blank line was found and the head decoded) and none of its
    words starts with [/]; no other failure of the parser raises it. *)
Theorem doParse_no_uri_token (data : bytes) :
  HTTPRequest.doParse data = Raise StopIteration
  ↔ ∃ words, HTTPRequest.request_words data = Ok words
           ∧ Forall (λ w, startswith (U "/") w = false) words.
Proof.
  unfold HTTPRequest.doParse, HTTPRequest.request_words.
  destruct (unpack2 (split_max 1 (CRLF ++ CRLF) data)) as [[head body]|e] eqn:E1.
  2:{ apply unpack2_Raise in E1 as ->. simpl. split; [discriminate|].
      by intros (? & [=] & _). }
  simpl. destruct (decode head) as [text|e] eqn:E2.
  2:{ apply decode_Raise in E2 as ->. simpl. split; [discriminate|].
      by intros (? & [=] & _). }
  simpl. destruct (split crlf text) as [|request_line headerlines] eqn:E3.
  { by apply split_not_nil in E3. }
  simpl. destruct (split (U " ") request_line) as [|method words] eqn:E4.
  { by apply split_not_nil in E4. }
  simpl. unfold str in *.
  destruct (filter (λ v : list N, startswith (U "/") v) (method :: words))
    as [|v vs] eqn:E5.
  - simpl. split; [|done]. intros _. exists (method :: words).
    split; [done|]. by apply filter_startswith_nil.
  - simpl. split.
    + intros Hr. exfalso.
      apply bind_Raise in Hr as [Hr|([ep q] & _ & Hr)].
      { by apply parse_uri_Raise in Hr. }
      apply bind_Raise in Hr as [Hr|(hs & _ & [=])].
      by apply dict_of_Raise in Hr.
    + intros (ws & [= <-] & Hf). apply filter_startswith_nil in Hf.
      unfold str in *. congruence.
Qed.

(** A request line without a [/]-word, for instance. *)
Example doParse_no_uri_token_example :
  HTTPRequest.doParse (B "GET isPrime HTTP/1.1" ++ CRLF ++ CRLF)
  = Raise StopIteration.
Proof. vm_compute. reflexivity. Qed.

(** C9. In a parsed request the query parameters are [None] exactly when
    the URI token has no [?]; with a [?] they are a dictionary. *)
Theorem doParse_qparams_None (data : bytes) (r : HTTPRequest.t) :
  HTTPRequest.doParse data = Ok r →
  ∃ v, HTTPRequest.uri_token data = Ok v
     ∧ (contains (U "?") v = false ↔ HTTPRequest.qparams r = None).
Proof.
  intros Hp. apply doParse_Ok_uri in Hp as (v & Hv & Hu).
  exists v. split; [done|].
  assert (Hc : contains (U "?") (strip (U "/") v) = contains (U "?") v).
  { apply eq_true_iff_eq. change (U "?") with [63%N].
    rewrite !contains_singleton. apply elem_of_strip.
    change (U "/") with [47%N]. rewrite list_elem_of_singleton. done. }
  unfold HTTPRequest.parse_uri in Hu. rewrite Hc in Hu.
  destruct (contains (U "?") v).
  - apply bind_Ok in Hu as ([ep rest] & _ & Hu).
    apply bind_Ok in Hu as (q & _ & [= _ <-]). done.
  - by injection Hu as _ <-.
Qed.

Lemma doParse_qparams_None_witness :
  let data := B "GET /download HTTP/1.1" ++ CRLF ++ CRLF in
  let r := HTTPRequest.mk (U "GET") (U "download") None (U "1.1") ∅ [] in
  HTTPRequest.doParse data = Ok r
  ∧ ∃ v, HTTPRequest.uri_token data = Ok v
       ∧ (contains (U "?") v = false ↔ HTTPRequest.qparams r = None).
Proof.
  assert (H : HTTPRequest.doParse (B "GET /download HTTP/1.1" ++ CRLF ++ CRLF)
              = Ok (HTTPRequest.mk (U "GET") (U "download") None (U "1.1") ∅ [])).
  { vm_compute. reflexivity. }
  split; [exact H|]. exact (doParse_qparams_None _ _ H).
Defined.

(** A [?] with nothing after it is not an empty dictionary: the one empty
    pair has no [=] and the parse fails. *)
Example doParse_empty_query :
  HTTPRequest.doParse (B "GET /x? HTTP/1.1" ++ CRLF ++ CRLF) = Raise ValueError.
Proof. vm_compute. reflexivity. Qed.


(** ** Dictionary comprehensions: the last pair of a key decides *)

Lemma dict_of_lookup_other acc l m k :
  dict_of acc l = Ok m →
  Forall (λ p, ∀ v', p ≠ [k; v']) l →
  m !! k = acc !! k.
Proof.
  revert acc. induction l as [|p l IH]; intros acc; simpl.
  - by intros [= <-] _.
  - intros Hd Hf. apply Forall_cons in Hf as [Hp Hf].
    apply bind_Ok in Hd as ([k0 v0] & Hu & Hd).
    apply unpack2_Ok in Hu as ->.
    rewrite (IH _ Hd Hf). apply lookup_insert_ne.
    intros ->. by apply (Hp v0).
Qed.

Lemma dict_of_lookup_last acc l1 k v l2 m :
  dict_of acc (l1 ++ [k; v] :: l2) = Ok m →
  Forall (λ p, ∀ v', p ≠ [k; v']) l2 →
  m !! k = Some v.
Proof.
  revert acc. induction l1 as [|p l1 IH]; intros acc; simpl.
  - intros Hd Hf. rewrite (dict_of_lookup_other _ _ _ _ Hd Hf).
    apply lookup_insert_eq.
  - intros Hd Hf. apply bind_Ok in Hd as ([k0 v0] & _ & Hd). by eapply IH.
Qed.



(** The same query string inside a request. *)
Example doParse_duplicate_key :
  HTTPRequest.qparams
    <$> HTTPRequest.doParse (B "GET /x?a=1&b=2&a=3 HTTP/1.1" ++ CRLF ++ CRLF)
  = Ok (Some {[ U "a" := U "3"; U "b" := U "2" ]}).
Proof. vm_compute. reflexivity. Qed.

(** ** The multipart decoder *)

Example multipart_body_one_part :
  multipart_body (B "XYZ") [([disposition (B "a.txt")], B "hello")]
  = B "--XYZ" ++ CRLF
      ++ B "Content-Disposition: form-data; name=" ++ quoted (B "file")
      ++ B "; filename=" ++ quoted (B "a.txt") ++ CRLF
      ++ CRLF
      ++ B "hello" ++ CRLF
      ++ B "--XYZ--" ++ CRLF.
Proof. reflexivity. Qed.

(** C2. The body with boundary [XYZ] and one part of payload [hello]
    decodes to one part, but its payload is the seven bytes [hello\r\n]:
    the line break that belongs to the closing delimiter stays in it. *)
Theorem FormData_payload_keeps_line_break :
  let data := multipart_body (B "XYZ") [([disposition (B "a.txt")], B "hello")] in
  length (FormData.form_parts (B "XYZ") data) = 1
  ∧ FormData.init data (B "XYZ")
    = Ok {| FormData.boundary := B "XYZ";
            FormData.headers :=
              Some {[ U "Content-Disposition" := latin1 (disposition_value (B "a.txt")) ]};
            FormData.formbody := Some (B "hello" ++ CRLF) |}
  ∧ length (B "hello" ++ CRLF) = 7.
Proof. repeat split; vm_compute; reflexivity. Qed.

(** C4. A part header whose value contains [: ] makes the decoder fail:
    its [header.split(b': ')] has no limit, so the line gives three pieces
    and the unpacking into key and value raises [ValueError]. The request
    parser, which splits with a limit of one, accepts the same line. *)
Theorem FormData_header_value_with_separator :
  let data :=
    multipart_body (B "XYZ") [([disposition (B "re: plan.txt")], B "hello")] in
  FormData.init data (B "XYZ") = Raise ValueError
  ∧ HTTPRequest.parse_headers [latin1 (disposition (B "re: plan.txt"))]
    = Ok {[ U "Content-Disposition" := latin1 (disposition_value (B "re: plan.txt")) ]}.
Proof. repeat split; vm_compute; reflexivity. Qed.

Lemma doParse_part_boundary self part :
  FormData.doParse_part self part
  = FormData.doParse_part (FormData.mk (FormData.boundary self) None None) part.
Proof.
  unfold FormData.doParse_part.
  by destruct (unpack2 (split_max 1 (CRLF ++ CRLF) part)) as [[tmpheaders payload]|e].
Qed.

Lemma doParse_part_Ok self part fd :
  FormData.doParse_part self part = Ok fd →
  ∃ tmpheaders payload hs,
    split_max 1 (CRLF ++ CRLF) part = [tmpheaders; payload]
    ∧ FormData.decode_headers ∅ (split (B ": ") <$> drop 1 (split CRLF tmpheaders))
      = Ok hs
    ∧ fd = FormData.mk (FormData.boundary self) (Some hs) (Some payload).
Proof.
  unfold FormData.doParse_part. intros Hp.
  apply bind_Ok in Hp as ([tmpheaders payload] & Hs & Hp).
  apply bind_Ok in Hp as (hs & Hh & [= <-]).
  apply unpack2_Ok in Hs. by exists tmpheaders, payload, hs.
Qed.

Lemma doParse_loop_app self l1 l2 :
  FormData.doParse_loop self (l1 ++ l2)
  = FormData.doParse_loop self l1 ≫= λ self', FormData.doParse_loop self' l2.
Proof.
  revert self. induction l1 as [|p l1 IH]; intros self; simpl; [done|].
  destruct (FormData.doParse_part self p); simpl; [apply IH|done].
Qed.

(** Parts that decode leave the loop running, with the same boundary. *)
Lemma doParse_loop_Ok self parts :
  Forall (λ p, is_Ok (FormData.doParse_part
                        (FormData.mk (FormData.boundary self) None None) p)) parts →
  ∃ self', FormData.doParse_loop self parts = Ok self'
         ∧ FormData.boundary self' = FormData.boundary self.
Proof.
  revert self. induction parts as [|p parts IH]; intros self Hf; simpl.
  - by exists self.
  - apply Forall_cons in Hf as [[fd Hp] Hf].
    rewrite doParse_part_boundary, Hp. simpl.
    apply doParse_part_Ok in Hp as (? & ? & ? & _ & _ & ->).
    simpl in *. apply (IH (FormData.mk _ _ _)). exact Hf.
Qed.

(** A part that does not decode stops the decoder with its exception. *)
Lemma doParse_loop_Raise self l1 p l2 e :
  Forall (λ p, is_Ok (FormData.doParse_part
                        (FormData.mk (FormData.boundary self) None None) p)) l1 →
  FormData.doParse_part (FormData.mk (FormData.boundary self) None None) p = Raise e →
  FormData.doParse_loop self (l1 ++ p :: l2) = Raise e.
Proof.
  intros Hf Hp. rewrite doParse_loop_app.
  destruct (doParse_loop_Ok _ _ Hf) as (self' & -> & Hb). simpl.
  by rewrite doParse_part_boundary, Hb, Hp.
Qed.

(** C5. With several parts, what the decoder returns is what the last part
    gives: its header mapping and its payload, nothing of the earlier
    parts. When the earlier parts decode, the decoder does just what it
    does on the last part alone. *)
Theorem doParse_keeps_last_part (data boundary : bytes) (parts : list bytes) (part : bytes) :
  FormData.form_parts boundary data = parts ++ [part] →
  (∀ fd, FormData.init data boundary = Ok fd →
     ∃ tmpheaders payload hs,
       split_max 1 (CRLF ++ CRLF) part = [tmpheaders; payload]
       ∧ FormData.decode_headers ∅
           (split (B ": ") <$> drop 1 (split CRLF tmpheaders)) = Ok hs
       ∧ FormData.headers fd = Some hs
       ∧ FormData.formbody fd = Some payload)
  ∧ (Forall (λ p, is_Ok (FormData.doParse_part (FormData.mk boundary None None) p))
       parts →
     FormData.init data boundary
     = FormData.doParse_part (FormData.mk boundary None None) part).
Proof.
  intros Hparts. unfold FormData.init, FormData.doParse. simpl.
  rewrite Hparts, doParse_loop_app. split.
  - intros fd Hfd. apply bind_Ok in Hfd as (self' & _ & Hfd). simpl in Hfd.
    apply bind_Ok in Hfd as (fd' & Hfd & [= ->]).
    apply doParse_part_Ok in Hfd as (tmpheaders & payload & hs & Hs & Hh & ->).
    by exists tmpheaders, payload, hs.
  - intros Hf.
    destruct (doParse_loop_Ok (FormData.mk boundary None None) _ Hf)
      as (self' & -> & Hb).
    simpl in *. rewrite doParse_part_boundary, Hb.
    by destruct (FormData.doParse_part _ part).
Qed.

Lemma doParse_keeps_last_part_witness :
  let data :=
    multipart_body (B "XYZ")
      [([disposition (B "a.txt")], B "first"); ([disposition (B "b.txt")], B "second")] in
  let p1 := CRLF ++ disposition (B "a.txt") ++ CRLF ++ CRLF ++ B "first" ++ CRLF in
  let p2 := CRLF ++ disposition (B "b.txt") ++ CRLF ++ CRLF ++ B "second" ++ CRLF in
  FormData.form_parts (B "XYZ") data = [p1] ++ [p2]
  ∧ FormData.init data (B "XYZ")
    = FormData.doParse_part (FormData.mk (B "XYZ") None None) p2
  ∧ FormData.init data (B "XYZ")
    = Ok {| FormData.boundary := B "XYZ";
            FormData.headers :=
              Some {[ U "Content-Disposition" := latin1 (disposition_value (B "b.txt")) ]};
            FormData.formbody := Some (B "second" ++ CRLF) |}.
Proof.
  intros data p1 p2.
  assert (H1 : FormData.form_parts (B "XYZ") data = [p1] ++ [p2]).
  { vm_compute. reflexivity. }
  assert (H2 : Forall (λ p, is_Ok (FormData.doParse_part
                                     (FormData.mk (B "XYZ") None None) p)) [p1]).
  { constructor; [|constructor].
    exists (FormData.mk (B "XYZ")
              (Some {[ U "Content-Disposition" := latin1 (disposition_value (B "a.txt")) ]})
              (Some (B "first" ++ CRLF))).
    vm_compute. reflexivity. }
  split; [exact H1|]. split.
  - exact (proj2 (doParse_keeps_last_part data (B "XYZ") [p1] p2 H1) H2).
  - vm_compute. reflexivity.
Defined.

(** ** The isPrime handler *)

(** C10, as the handler has it. For [number] equal to [0] or [1] the range
    of the trial division is empty and the reply is [200 OK] with
    [isPrime] true. *)
Theorem handle_is_prime_zero_one
    (int_of_str : str → result Z) (int_sqrt_far : Z → result Z)
    (request : HTTPRequest.t) (q : gmap str str) (s : str) (n : Z) :
  HTTPRequest.qparams request = Some q →
  q !! U "number" = Some s →
  int_of_str s = Ok n →
  (0 ≤ n < 2)%Z →
  (∃ stop, HTTPServer.int_sqrt int_sqrt_far n = Ok stop
         ∧ seqZ 2 (stop + 1 - 2) = [])
  ∧ HTTPServer.handle_is_prime int_of_str int_sqrt_far request
    = Ok (B "HTTP/1.1 200 OK" ++ CRLF
            ++ B "Server: KeremenciServer" ++ CRLF
            ++ B "Content-Type: application/json" ++ CRLF
            ++ CRLF
            ++ B "{" ++ quoted (B "number") ++ B ": " ++ B (pretty n) ++ B ", "
            ++ quoted (B "isPrime") ++ B ": true}").
Proof.
  intros Hq Hk Hs Hn.
  unfold HTTPServer.handle_is_prime, HTTPServer.qparams_number.
  rewrite Hq, Hk. simpl. rewrite Hs.
  assert (Hcases : n = 0%Z ∨ n = 1%Z) by lia.
  destruct Hcases as [-> | ->].
  - split; [by exists 0%Z|]. vm_compute. reflexivity.
  - split; [by exists 1%Z|]. vm_compute. reflexivity.
Qed.

Lemma handle_is_prime_zero_one_witness :
  let request :=
    HTTPRequest.mk (U "GET") (U "isPrime") (Some {[ U "number" := U "1" ]})
      (U "1.1") ∅ [] in
  HTTPServer.handle_is_prime HTTPServer.int_of_decimal (λ _, Raise OverflowError) request
  = Ok (B "HTTP/1.1 200 OK" ++ CRLF
          ++ B "Server: KeremenciServer" ++ CRLF
          ++ B "Content-Type: application/json" ++ CRLF
          ++ CRLF
          ++ B "{" ++ quoted (B "number") ++ B ": 1, "
          ++ quoted (B "isPrime") ++ B ": true}").
Proof.
  intros request.
  refine (proj2 (handle_is_prime_zero_one HTTPServer.int_of_decimal
                   (λ _, Raise OverflowError) request
                   {[ U "number" := U "1" ]} (U "1") 1%Z _ _ _ _)).
  - reflexivity.
  - vm_compute. reflexivity.
  - vm_compute. reflexivity.
  - lia.
Defined.

(** C10 as stated fails below zero: for [number=-1] the parameter is read
    as [-1], which is less than [2], and [sqrt] raises [ValueError] outside
    the [try], so the handler gives no reply. *)
Lemma handle_is_prime_negative :
  let request :=
    HTTPRequest.mk (U "GET") (U "isPrime") (Some {[ U "number" := U "-1" ]})
      (U "1.1") ∅ [] in
  HTTPServer.qparams_number request ≫= HTTPServer.int_of_decimal = Ok (-1)%Z
  ∧ (-1 < 2)%Z
  ∧ HTTPServer.handle_is_prime HTTPServer.int_of_decimal (λ _, Raise OverflowError)
      request
    = Raise ValueError.
Proof. repeat split; vm_compute; reflexivity. Qed.

(** Without a query string [request.qparams] is [None]; subscripting it
    raises [TypeError], which the handler answers with [400]. *)
Example handle_is_prime_no_query :
  HTTPServer.handle_is_prime HTTPServer.int_of_decimal (λ _, Raise OverflowError)
    (HTTPRequest.mk (U "GET") (U "isPrime") None (U "1.1") ∅ [])
  = Ok (B "HTTP/1.1 400 Bad Request" ++ CRLF
          ++ B "Server: KeremenciServer" ++ CRLF
          ++ B "Content-Type: application/json" ++ CRLF
          ++ CRLF
          ++ B "{" ++ quoted (B "message") ++ B ": "
          ++ quoted (B "Invalid parameter") ++ B "}").
Proof. vm_compute. reflexivity. Qed.

(** * Further properties *)

(** ** Encoding ASCII text *)

Lemma latin1_app a b : latin1 (a ++ b) = latin1 a ++ latin1 b.
Proof. unfold latin1. apply fmap_app. Qed.

Lemma encode_latin1 (b : bytes) :
  Forall (λ x, (Byte.to_N x < 128)%N) b → encode (latin1 b) = Ok b.
Proof.
  intros Hb. unfold encode.
  assert (H1 : mapM encode_char (latin1 b) = Some ((λ c, [c]) <$> latin1 b)).
  { apply mapM_Some. unfold latin1. rewrite <- list_fmap_compose.
    apply Forall2_fmap. induction Hb as [|x b Hx Hb IH]; constructor; [|done].
    simpl. unfold encode_char. by apply N.ltb_lt in Hx as ->. }
  rewrite H1. simpl.
  assert (H2 : concat ((λ c : N, [c]) <$> latin1 b) = latin1 b).
  { generalize (latin1 b). intros l.
    induction l as [|c l IH]; [done|]. rewrite fmap_cons. simpl. by rewrite IH. }
  rewrite H2. unfold latin1.
  by rewrite (mapM_fmap_Some _ _ b Byte.of_to_N).
Qed.

Lemma pretty_N_go_ascii x s :
  Forall (λ b, (Byte.to_N b < 128)%N) (String.list_byte_of_string s) →
  Forall (λ b, (Byte.to_N b < 128)%N) (String.list_byte_of_string (pretty_N_go x s)).
Proof.
  revert s. induction (N.lt_wf_0 x) as [x _ IH]; intros s Hs.
  assert (x = 0 ∨ 0 < x)%N as [->|Hx] by lia.
  - by rewrite pretty_N_go_0.
  - rewrite pretty_N_go_step by done. apply IH.
    { by apply N.div_lt. }
    simpl. constructor; [|done].
    unfold pretty_N_char. by repeat case_match.
Qed.

Lemma pretty_Z_ascii (z : Z) : Forall (λ b, (Byte.to_N b < 128)%N) (B (pretty z)).
Proof.
  assert (HN : ∀ x : N,
             Forall (λ b, (Byte.to_N b < 128)%N) (String.list_byte_of_string (pretty x))).
  { intros x. unfold pretty, pretty_N. case_decide.
    - by repeat constructor.
    - apply pretty_N_go_ascii. constructor. }
  unfold B. destruct z as [|q|q]; unfold pretty, pretty_Z.
  - by repeat constructor.
  - apply (HN (N.pos q)).
  - simpl. constructor; [done|]. apply (HN (N.pos q)).
Qed.

(** ** The isPrime handler: trial division *)

Lemma trial_division_false (num : Z) (l : list Z) (r : bool) :
  foldl (λ result i, if (num `mod` i =? 0)%Z then false else result) r l = false
  ↔ r = false ∨ ∃ i, i ∈ l ∧ (num `mod` i = 0)%Z.
Proof.
  revert r. induction l as [|i l IH]; intros r; simpl.
  - split; [by left|]. intros [->|(i & Hi & _)]; [done|]. by apply elem_of_nil in Hi.
  - rewrite IH. destruct (num `mod` i =? 0)%Z eqn:E.
    + apply Z.eqb_eq in E. split; [|by left].
      intros _. right. exists i. split; [by left|done].
    + apply Z.eqb_neq in E. split.
      * intros [->|(j & Hj & Hm)]; [by left|]. right. exists j. split; [by right|done].
      * intros [->|(j & Hj & Hm)]; [by left|]. right.
        apply elem_of_cons in Hj as [->|Hj]; [done|]. by exists j.
Qed.

(** A number from [2] on is prime exactly when nothing from [2] to its
    integer square root divides it. *)
Lemma prime_trial (n : Z) :
  (2 ≤ n)%Z →
  Z.prime n ↔ ¬ ∃ i, (2 ≤ i ≤ Z.sqrt n)%Z ∧ (n `mod` i = 0)%Z.
Proof.
  intros Hn. pose proof (Z.sqrt_spec n ltac:(lia)) as Hs. cbv zeta in Hs.
  pose proof (Z.sqrt_nonneg n) as Hs0.
  split.
  - intros [_ Hp] (i & Hi & Hm).
    assert (Z.sqrt n < n)%Z by (apply Z.sqrt_lt_lin; lia).
    apply (Hp i); [lia|]. apply Z.mod_divide; [lia|done].
  - intros Hno. split; [lia|]. intros d Hd [q Hq]. apply Hno.
    destruct (Z_le_gt_dec d (Z.sqrt n)) as [Hle|Hgt].
    + exists d. split; [lia|]. rewrite Hq. apply Z.mod_mul. lia.
    + exists q. assert (1 < q)%Z by nia.
      assert (q ≤ Z.sqrt n)%Z.
      { destruct (Z_le_gt_dec q (Z.sqrt n)) as [|Hq']; [done|]. exfalso.
        assert (Z.succ (Z.sqrt n) * Z.succ (Z.sqrt n) ≤ q * d)%Z
          by (apply Z.mul_le_mono_nonneg; lia).
        lia. }
      split; [lia|].
      rewrite Hq, Z.mul_comm. apply Z.mod_mul. lia.
Qed.

Lemma int_sqrt_exact (far : Z → result Z) (n : Z) :
  (0 ≤ n < 2 ^ 52)%Z → HTTPServer.int_sqrt far n = Ok (Z.sqrt n).
Proof.
  intros [H0 H1]. unfold HTTPServer.int_sqrt.
  apply Z.leb_le in H0. apply Z.ltb_lt in H1. by rewrite H0, H1.
Qed.

Lemma isPrime_body (n : Z) (b : bool) :
  encode (HTTPServer.json_dumps
            [(U "number", HTTPServer.PInt n); (U "isPrime", HTTPServer.PBool b)])
  = Ok (B "{" ++ quoted (B "number") ++ B ": " ++ B (pretty n) ++ B ", "
          ++ quoted (B "isPrime") ++ B ": " ++ B (if b then "true" else "false")
          ++ B "}").
Proof.
  assert (Hd : HTTPServer.json_dumps
                 [(U "number", HTTPServer.PInt n); (U "isPrime", HTTPServer.PBool b)]
               = latin1 (B "{" ++ quoted (B "number") ++ B ": " ++ B (pretty n) ++ B ", "
                           ++ quoted (B "isPrime") ++ B ": "
                           ++ B (if b then "true" else "false") ++ B "}")).
  { rewrite !latin1_app. unfold HTTPServer.json_dumps. simpl HTTPServer.json_items.
    unfold HTTPServer.json_val, HTTPServer.str_of_int, HTTPServer.json_str, U.
    set (digits := latin1 (B (pretty n))).
    destruct b; simpl; by rewrite <- ?(assoc_L (++)). }
  rewrite Hd. apply encode_latin1.
  repeat (apply Forall_app; split);
    try apply pretty_Z_ascii; try (by destruct b; repeat constructor);
    by repeat constructor.
Qed.

Lemma isPrime_reply_200 (n : Z) (b : bool) :
  (status ← HTTPServer.getitem (U "status")
              (HTTPServer.setitem (U "status") (HTTPServer.PInt 200) []);
   response_line ← HTTPServer.response_line status;
   response_headers ← HTTPServer.response_headers None;
   let response :=
     HTTPServer.setitem (U "number") (HTTPServer.PInt n)
       (HTTPServer.setitem (U "status") (HTTPServer.PInt 200) []) in
   let response := HTTPServer.setitem (U "isPrime") (HTTPServer.PBool b) response in
   response ← HTTPServer.delitem (U "status") response;
   respbody ← encode (HTTPServer.json_dumps response);
   Ok (response_line ++ response_headers ++ HTTPServer.BLANK_LINE ++ respbody))
  = Ok (B "HTTP/1.1 200 OK" ++ CRLF
          ++ B "Server: KeremenciServer" ++ CRLF
          ++ B "Content-Type: application/json" ++ CRLF
          ++ CRLF
          ++ B "{" ++ quoted (B "number") ++ B ": " ++ B (pretty n) ++ B ", "
          ++ quoted (B "isPrime") ++ B ": " ++ B (if b then "true" else "false")
          ++ B "}").
Proof.
  change (HTTPServer.getitem (U "status")
            (HTTPServer.setitem (U "status") (HTTPServer.PInt 200) []))
    with (Ok (HTTPServer.PInt 200)).
  change (Ok (HTTPServer.PInt 200) ≫= ?f) with (f (HTTPServer.PInt 200)). cbv beta.
  change (HTTPServer.response_line (HTTPServer.PInt 200))
    with (Ok (B "HTTP/1.1 200 OK" ++ CRLF)).
  change (Ok (B "HTTP/1.1 200 OK" ++ CRLF) ≫= ?f) with (f (B "HTTP/1.1 200 OK" ++ CRLF)).
  cbv beta.
  change (HTTPServer.response_headers None)
    with (Ok (B "Server: KeremenciServer" ++ CRLF
                ++ B "Content-Type: application/json" ++ CRLF)).
  change (Ok (B "Server: KeremenciServer" ++ CRLF
                ++ B "Content-Type: application/json" ++ CRLF) ≫= ?f)
    with (f (B "Server: KeremenciServer" ++ CRLF
               ++ B "Content-Type: application/json" ++ CRLF)).
  cbv beta zeta.
  change (HTTPServer.delitem (U "status") _)
    with (Ok [(U "number", HTTPServer.PInt n); (U "isPrime", HTTPServer.PBool b)]).
  change (Ok [(U "number", HTTPServer.PInt n); (U "isPrime", HTTPServer.PBool b)]
            ≫= ?f)
    with (f [(U "number", HTTPServer.PInt n); (U "isPrime", HTTPServer.PBool b)]).
  cbv beta. rewrite isPrime_body.
  change (Ok ?x ≫= ?f) with (f x). cbv beta.
  by rewrite <- !(assoc_L (++)).
Qed.

(** Trial division up to the square root decides primality. *)
Lemma handle_is_prime_trial
    (int_of_str : str → result Z) (int_sqrt_far : Z → result Z)
    (request : HTTPRequest.t) (q : gmap str str) (s : str) (n : Z) :
  HTTPRequest.qparams request = Some q →
  q !! U "number" = Some s →
  int_of_str s = Ok n →
  (2 ≤ n < 2 ^ 52)%Z →
  ∃ b : bool,
    (b = true ↔ Z.prime n)
    ∧ HTTPServer.handle_is_prime int_of_str int_sqrt_far request
      = Ok (B "HTTP/1.1 200 OK" ++ CRLF
              ++ B "Server: KeremenciServer" ++ CRLF
              ++ B "Content-Type: application/json" ++ CRLF
              ++ CRLF
              ++ B "{" ++ quoted (B "number") ++ B ": " ++ B (pretty n) ++ B ", "
              ++ quoted (B "isPrime") ++ B ": " ++ B (if b then "true" else "false")
              ++ B "}").
Proof.
  intros Hq Hk Hs Hn.
  set (b := foldl (λ result i, if (n `mod` i =? 0)%Z then false else result)
              true (seqZ 2 (Z.sqrt n + 1 - 2))).
  exists b. split.
  - rewrite prime_trial by lia. rewrite <- not_false_iff_true.
    unfold b. rewrite trial_division_false. split.
    + intros Hno (i & Hi & Hm). apply Hno. right. exists i. split; [|done].
      apply elem_of_seqZ. lia.
    + intros Hno [|(i & Hi & Hm)]; [done|]. apply Hno. exists i. split; [|done].
      apply elem_of_seqZ in Hi. lia.
  - unfold HTTPServer.handle_is_prime, HTTPServer.qparams_number.
    rewrite Hq, Hk. cbv zeta.
    change (Ok s ≫= int_of_str) with (int_of_str s). rewrite Hs.
    rewrite int_sqrt_exact by lia.
    exact (isPrime_reply_200 n b).
Qed.

(** X1. For a number from [2] up to [2^52] the handler answers [200 OK]
    and its [isPrime] is true exactly when the number is prime. *)
Theorem handle_is_prime_decides
    (int_of_str : str → result Z) (int_sqrt_far : Z → result Z)
    (request : HTTPRequest.t) (q : gmap str str) (s : str) (n : Z) :
  HTTPRequest.qparams request = Some q →
  q !! U "number" = Some s →
  int_of_str s = Ok n →
  (2 ≤ n < 2 ^ 52)%Z →
  ∃ b : bool,
    (b = true ↔ Z.prime n)
    ∧ HTTPServer.handle_is_prime int_of_str int_sqrt_far request
      = Ok (B "HTTP/1.1 200 OK" ++ CRLF
              ++ B "Server: KeremenciServer" ++ CRLF
              ++ B "Content-Type: application/json" ++ CRLF
              ++ CRLF
              ++ B "{" ++ quoted (B "number") ++ B ": " ++ B (pretty n) ++ B ", "
              ++ quoted (B "isPrime") ++ B ": " ++ B (if b then "true" else "false")
              ++ B "}").
Proof.
  exact (handle_is_prime_trial int_of_str int_sqrt_far request q s n).
Qed.

Lemma handle_is_prime_decides_witness :
  let request :=
    HTTPRequest.mk (U "GET") (U "isPrime") (Some {[ U "number" := U "91" ]})
      (U "1.1") ∅ [] in
  ∃ b : bool,
    (b = true ↔ Z.prime 91)
    ∧ HTTPServer.handle_is_prime HTTPServer.int_of_decimal (λ _, Raise OverflowError)
        request
      = Ok (B "HTTP/1.1 200 OK" ++ CRLF
              ++ B "Server: KeremenciServer" ++ CRLF
              ++ B "Content-Type: application/json" ++ CRLF
              ++ CRLF
              ++ B "{" ++ quoted (B "number") ++ B ": " ++ B (pretty 91%Z) ++ B ", "
              ++ quoted (B "isPrime") ++ B ": " ++ B (if b then "true" else "false")
              ++ B "}").
Proof.
  intros request.
  refine (handle_is_prime_decides HTTPServer.int_of_decimal
            (λ _, Raise OverflowError) request
            {[ U "number" := U "91" ]} (U "91") 91%Z _ _ _ _).
  - reflexivity.
  - vm_compute. reflexivity.
  - vm_compute. reflexivity.
  - lia.
Defined.

(** X2. Without a query string, without the key [number], or when [int]
    rejects its value, the handler answers [400 Bad Request] with the
    message [Invalid parameter]. *)
Theorem handle_is_prime_invalid_parameter
    (int_of_str : str → result Z) (int_sqrt_far : Z → result Z)
    (request : HTTPRequest.t) :
  (HTTPRequest.qparams request = None
   ∨ (∃ q, HTTPRequest.qparams request = Some q ∧ q !! U "number" = None)
   ∨ (∃ q s, HTTPRequest.qparams request = Some q ∧ q !! U "number" = Some s
            ∧ int_of_str s = Raise ValueError)) →
  HTTPServer.handle_is_prime int_of_str int_sqrt_far request
  = Ok (B "HTTP/1.1 400 Bad Request" ++ CRLF
          ++ B "Server: KeremenciServer" ++ CRLF
          ++ B "Content-Type: application/json" ++ CRLF
          ++ CRLF
          ++ B "{" ++ quoted (B "message") ++ B ": "
          ++ quoted (B "Invalid parameter") ++ B "}").
Proof.
  unfold HTTPServer.handle_is_prime, HTTPServer.qparams_number.
  intros [Hq|[(q & Hq & Hk)|(q & s & Hq & Hk & Hs)]].
  - rewrite Hq. vm_compute. reflexivity.
  - rewrite Hq, Hk. vm_compute. reflexivity.
  - rewrite Hq, Hk. change (Ok s ≫= int_of_str) with (int_of_str s). rewrite Hs.
    vm_compute. reflexivity.
Qed.

Lemma handle_is_prime_invalid_parameter_witness :
  HTTPServer.handle_is_prime HTTPServer.int_of_decimal (λ _, Raise OverflowError)
    (HTTPRequest.mk (U "GET") (U "isPrime") (Some {[ U "number" := U "seven" ]})
       (U "1.1") ∅ [])
  = Ok (B "HTTP/1.1 400 Bad Request" ++ CRLF
          ++ B "Server: KeremenciServer" ++ CRLF
          ++ B "Content-Type: application/json" ++ CRLF
          ++ CRLF
          ++ B "{" ++ quoted (B "message") ++ B ": "
          ++ quoted (B "Invalid parameter") ++ B "}").
Proof.
  apply handle_is_prime_invalid_parameter. right. right.
  exists {[ U "number" := U "seven" ]}, (U "seven").
  repeat split; vm_compute; reflexivity.
Defined.

(** ** The request parser: framing *)

Section FindFacts.
Context {A : Type} `{EqDecision A}.
Implicit Types sub s : list A.

(** [find] gives the first occurrence. *)
Lemma find_Some_min sub s i pre post :
  find sub s = Some i → s = pre ++ sub ++ post → i ≤ length pre.
Proof.
  revert i pre. induction s as [|a s IH]; intros i pre; simpl.
  - destruct (startswith sub []); [|discriminate]. intros [= <-] _. lia.
  - destruct (startswith sub (a :: s)) eqn:E; [intros [= <-] _; lia|].
    destruct (find sub s) as [j|] eqn:Ej; [|discriminate].
    simpl. intros [= <-] Hs. apply startswith_false in E.
    destruct pre as [|b pre].
    + exfalso. apply E. exists post. exact Hs.
    + simpl in Hs. injection Hs as _ Hs. specialize (IH j pre eq_refl Hs).
      simpl. lia.
Qed.

Lemma find_unfold sub s :
  find sub s
  = if startswith sub s then Some 0
    else match s with
         | [] => None
         | _ :: s' => S <$> find sub s'
         end.
Proof. by destruct s. Qed.

Lemma find_prefix sub s : sub `prefix_of` s → find sub s = Some 0.
Proof.
  intros Hp. rewrite find_unfold.
  by rewrite (proj2 (startswith_true sub s) Hp).
Qed.

(** What follows the first occurrence does not move it. *)
Lemma find_app_suffix sub s i t :
  find sub s = Some i → find sub (take (i + length sub) s ++ t) = Some i.
Proof.
  revert i. induction s as [|a s IH]; intros i Hf; rewrite find_unfold in Hf.
  - destruct (startswith sub []) eqn:E; [|discriminate]. injection Hf as <-.
    apply find_prefix. apply startswith_true in E as [k Hk].
    symmetry in Hk. apply app_eq_nil in Hk as [-> ->]. apply prefix_nil.
  - destruct (startswith sub (a :: s)) eqn:E.
    + injection Hf as <-. apply find_prefix.
      apply startswith_true in E as [k Hk]. rewrite Hk. simpl.
      rewrite take_app_length. by apply prefix_app_r.
    + destruct (find sub s) as [j|] eqn:Ej; [|discriminate].
      injection Hf as <-.
      pose proof (find_Some_bound _ _ _ Ej) as Hb.
      change (take (S j + length sub) (a :: s) ++ t)
        with (a :: (take (j + length sub) s ++ t)).
      rewrite find_unfold.
      destruct (startswith sub (a :: take (j + length sub) s ++ t)) eqn:E'.
      * exfalso. apply startswith_false in E. apply E.
        apply startswith_true in E'.
        assert (Hp : a :: take (j + length sub) s `prefix_of` a :: s).
        { apply prefix_cons, prefix_take. }
        destruct (prefix_weak_total sub (a :: take (j + length sub) s)
                    ((a :: take (j + length sub) s) ++ t)) as [Hs|Hs].
        -- exact E'.
        -- by apply prefix_app_r.
        -- by etrans.
        -- apply prefix_length in Hs. simpl in Hs.
           rewrite length_take in Hs. lia.
      * by rewrite (IH j eq_refl).
Qed.

End FindFacts.

Lemma split_max_1_inv {A} `{EqDecision A} (sep s h b : list A) :
  split_max 1 sep s = [h; b] →
  find sep s = Some (length h) ∧ s = h ++ sep ++ b.
Proof.
  simpl. destruct (find sep s) as [i|] eqn:E; [|discriminate].
  intros [= <- <-]. pose proof (find_Some_bound _ _ _ E) as Hb.
  rewrite length_take, Nat.min_l by lia. split; [done|]. by apply find_Some.
Qed.

Lemma split_max_1_first {A} `{EqDecision A} (sep h b b' : list A) :
  find sep (h ++ sep ++ b) = Some (length h) →
  split_max 1 sep (h ++ sep ++ b') = [h; b'].
Proof.
  intros Hf. apply (find_app_suffix _ _ _ b') in Hf.
  rewrite (assoc_L (++)), <- length_app, take_app_length in Hf.
  rewrite <- (assoc_L (++)) in Hf. simpl. rewrite Hf.
  rewrite take_app_length, drop_app_add', drop_app_length; done.
Qed.

(** The steps of a successful parse, and back. *)
Lemma doParse_Ok_steps data r :
  HTTPRequest.doParse data = Ok r
  ↔ ∃ head text request_line headerlines words v vs,
      split_max 1 (CRLF ++ CRLF) data = [head; HTTPRequest.body r]
      ∧ decode head = Ok text
      ∧ split crlf text = request_line :: headerlines
      ∧ split (U " ") request_line = HTTPRequest.method r :: words
      ∧ filter (λ w : str, startswith (U "/") w) (HTTPRequest.method r :: words)
        = v :: vs
      ∧ HTTPRequest.parse_uri (strip (U "/") v)
        = Ok (HTTPRequest.endpoint r, HTTPRequest.qparams r)
      ∧ HTTPRequest.http_version r
        = HTTPRequest.parse_version (HTTPRequest.method r :: words)
      ∧ HTTPRequest.parse_headers headerlines = Ok (HTTPRequest.headers r).
Proof.
  unfold HTTPRequest.doParse. split.
  - intros Hp.
    apply bind_Ok in Hp as ([head body] & H1 & Hp). apply unpack2_Ok in H1.
    apply bind_Ok in Hp as (text & H2 & Hp).
    apply bind_Ok in Hp as ([request_line headerlines] & H3 & Hp).
    apply bind_Ok in Hp as (method & H4 & Hp).
    apply bind_Ok in Hp as ([uri others] & H5 & Hp).
    apply bind_Ok in Hp as ([ep q] & H6 & Hp).
    apply bind_Ok in Hp as (hs & H7 & [= <-]). simpl.
    destruct (split crlf text) as [|l ls] eqn:E3; [discriminate|].
    injection H3 as -> ->.
    destruct (split (U " ") request_line) as [|w ws] eqn:E4; [discriminate|].
    injection H4 as ->.
    unfold str in *.
    destruct (filter (λ v : list N, startswith (U "/") v) (method :: ws))
      as [|v vs] eqn:E5; [discriminate|].
    injection H5 as <- <-.
    by exists head, text, request_line, headerlines, ws, v, vs.
  - intros (head & text & request_line & headerlines & words & v & vs
            & H1 & H2 & H3 & H4 & H5 & H6 & H7 & H8).
    rewrite H1. simpl. rewrite H2. simpl. rewrite H3. simpl.
    unfold str in *. rewrite H4. simpl. rewrite H5. simpl.
    rewrite H6. simpl. rewrite H8. simpl. rewrite <- H7. by destruct r.
Qed.

(** X3. The body of a parsed request is what follows the first
    [\r\n\r\n], byte for byte, and the parser never looks into it: with
    any other body after the same head, the same request is parsed. *)
Theorem doParse_body_untouched (data : bytes) (r : HTTPRequest.t) :
  HTTPRequest.doParse data = Ok r →
  ∃ head,
    data = head ++ (CRLF ++ CRLF) ++ HTTPRequest.body r
    ∧ (∀ pre post, data = pre ++ (CRLF ++ CRLF) ++ post → length head ≤ length pre)
    ∧ ∀ body',
        HTTPRequest.doParse (head ++ (CRLF ++ CRLF) ++ body')
        = Ok (HTTPRequest.mk (HTTPRequest.method r) (HTTPRequest.endpoint r)
                (HTTPRequest.qparams r) (HTTPRequest.http_version r)
                (HTTPRequest.headers r) body').
Proof.
  intros Hp. apply doParse_Ok_steps in Hp
    as (head & text & request_line & headerlines & words & v & vs
        & H1 & H2 & H3 & H4 & H5 & H6 & H7 & H8).
  apply split_max_1_inv in H1 as [Hf Hd].
  exists head. split; [exact Hd|]. split.
  - intros pre post Hd'. by eapply find_Some_min.
  - intros body'. apply doParse_Ok_steps.
    exists head, text, request_line, headerlines, words, v, vs.
    cbn [HTTPRequest.body HTTPRequest.method HTTPRequest.endpoint
         HTTPRequest.qparams HTTPRequest.http_version HTTPRequest.headers].
    split; [|done].
    apply (split_max_1_first _ _ (HTTPRequest.body r)). by rewrite <- Hd.
Qed.

Lemma doParse_body_untouched_witness :
  let data := B "POST /upload HTTP/1.1" ++ CRLF ++ B "Host: x" ++ CRLF ++ CRLF
                ++ [xff; x00] ++ CRLF ++ CRLF ++ [xfe] in
  let r := HTTPRequest.mk (U "POST") (U "upload") None (U "1.1")
             {[ U "Host" := U "x" ]} ([xff; x00] ++ CRLF ++ CRLF ++ [xfe]) in
  HTTPRequest.doParse data = Ok r
  ∧ ∃ head,
      data = head ++ (CRLF ++ CRLF) ++ HTTPRequest.body r
      ∧ (∀ pre post, data = pre ++ (CRLF ++ CRLF) ++ post → length head ≤ length pre)
      ∧ ∀ body',
          HTTPRequest.doParse (head ++ (CRLF ++ CRLF) ++ body')
          = Ok (HTTPRequest.mk (HTTPRequest.method r) (HTTPRequest.endpoint r)
                  (HTTPRequest.qparams r) (HTTPRequest.http_version r)
                  (HTTPRequest.headers r) body').
Proof.
  intros data r.
  assert (H : HTTPRequest.doParse data = Ok r) by (vm_compute; reflexivity).
  split; [exact H|]. exact (doParse_body_untouched data r H).
Defined.

(** ** The request parser: headers and query pairs *)

(** Where an entry of a dictionary comprehension comes from. *)
Lemma dict_of_lookup_Some acc l m k v :
  dict_of acc l = Ok m →
  m !! k = Some v
  ↔ (∃ l1 l2, l = l1 ++ [k; v] :: l2 ∧ Forall (λ p, ∀ v', p ≠ [k; v']) l2)
    ∨ (acc !! k = Some v ∧ Forall (λ p, ∀ v', p ≠ [k; v']) l).
Proof.
  intros Hd. split.
  - revert acc Hd. induction l as [|p l IH]; intros acc Hd Hm.
    + injection Hd as <-. right. by split.
    + simpl in Hd. apply bind_Ok in Hd as ([k0 v0] & Hu & Hd).
      apply unpack2_Ok in Hu as ->.
      destruct (IH _ Hd Hm) as [(l1 & l2 & -> & Hl2)|[Ha Hl]].
      * left. by exists ([k0; v0] :: l1), l2.
      * destruct (decide (k0 = k)) as [->|Hne].
        -- rewrite lookup_insert_eq in Ha. injection Ha as ->.
           left. by exists [], l.
        -- rewrite lookup_insert_ne in Ha by done. right. split; [done|].
           constructor; [|done]. congruence.
  - intros [(l1 & l2 & -> & Hl2)|[Ha Hl]].
    + by eapply dict_of_lookup_last.
    + by rewrite (dict_of_lookup_other _ _ _ _ Hd Hl).
Qed.


Lemma doParse_Ok_header_lines data r :
  HTTPRequest.doParse data = Ok r →
  ∃ ls, HTTPRequest.header_lines data = Ok ls
      ∧ HTTPRequest.parse_headers ls = Ok (HTTPRequest.headers r).
Proof.
  intros Hp. apply doParse_Ok_steps in Hp
    as (head & text & request_line & headerlines & words & v & vs
        & H1 & H2 & H3 & H4 & H5 & H6 & H7 & H8).
  exists headerlines. split; [|done].
  unfold HTTPRequest.header_lines. rewrite H1. simpl. rewrite H2. simpl.
  by rewrite H3.
Qed.

(** X4. The header mapping of a parsed request holds, under each key, the
    value of the last header line with that key, and nothing else. *)
Theorem doParse_header_last_wins (data : bytes) (r : HTTPRequest.t) :
  HTTPRequest.doParse data = Ok r →
  ∃ ls, HTTPRequest.header_lines data = Ok ls
      ∧ ∀ k v,
          HTTPRequest.headers r !! k = Some v
          ↔ ∃ pre line post,
              ls = pre ++ line :: post
              ∧ split_max 1 (U ": ") line = [k; v]
              ∧ Forall (λ l, ∀ v', split_max 1 (U ": ") l ≠ [k; v']) post.
Proof.
  intros Hp. apply doParse_Ok_header_lines in Hp as (ls & Hl & Hh).
  exists ls. split; [done|]. intros k v.
  unfold HTTPRequest.parse_headers in Hh.
  rewrite (dict_of_lookup_Some _ _ _ k v Hh). split.
  - intros [(l1 & l2 & Hs & Hl2)|[He _]]; [|by rewrite lookup_empty in He].
    apply fmap_app_inv in Hs as (pre & rest & -> & Hrest & ->).
    symmetry in Hrest. apply fmap_cons_inv in Hrest as (line & post & Hline & -> & ->).
    exists pre, line, post. repeat split; [done|]. by apply Forall_fmap in Hl2.
  - intros (pre & line & post & -> & Hline & Hpost). left.
    exists (split_max 1 (U ": ") <$> pre), (split_max 1 (U ": ") <$> post).
    rewrite fmap_app, fmap_cons, Hline. split; [done|]. by apply Forall_fmap.
Qed.

Lemma doParse_header_last_wins_witness :
  let data := B "GET / HTTP/1.1" ++ CRLF ++ B "Accept: a" ++ CRLF ++ B "Host: x"
                ++ CRLF ++ B "Accept: b" ++ CRLF ++ CRLF in
  let r := HTTPRequest.mk (U "GET") [] None (U "1.1")
             {[ U "Accept" := U "b"; U "Host" := U "x" ]} [] in
  HTTPRequest.doParse data = Ok r
  ∧ ∃ ls, HTTPRequest.header_lines data = Ok ls
        ∧ ∀ k v,
            HTTPRequest.headers r !! k = Some v
            ↔ ∃ pre line post,
                ls = pre ++ line :: post
                ∧ split_max 1 (U ": ") line = [k; v]
                ∧ Forall (λ l, ∀ v', split_max 1 (U ": ") l ≠ [k; v']) post.
Proof.
  intros data r.
  assert (H : HTTPRequest.doParse data = Ok r) by (vm_compute; reflexivity).
  split; [exact H|]. exact (doParse_header_last_wins data r H).
Defined.



(** A header line without [: ], a query pair without [=]. *)
Example doParse_malformed_header :
  HTTPRequest.doParse (B "GET / HTTP/1.1" ++ CRLF ++ B "Host" ++ CRLF ++ CRLF)
  = Raise ValueError.
Proof. vm_compute. reflexivity. Qed.

Example doParse_malformed_pair :
  HTTPRequest.doParse (B "GET /x?a=1&b HTTP/1.1" ++ CRLF ++ CRLF) = Raise ValueError.
Proof. vm_compute. reflexivity. Qed.

(** The exceptions of the parser. *)
Lemma doParse_Raise_cases (data : bytes) (e : exn) :
  HTTPRequest.doParse data = Raise e →
  e = ValueError ∨ e = UnicodeDecodeError ∨ e = StopIteration.
Proof.
  unfold HTTPRequest.doParse. intros Hp.
  apply bind_Raise in Hp as [Hp|([head body] & _ & Hp)].
  { left. by apply unpack2_Raise in Hp. }
  apply bind_Raise in Hp as [Hp|(text & _ & Hp)].
  { right. left. by apply decode_Raise in Hp. }
  apply bind_Raise in Hp as [Hp|([request_line headerlines] & _ & Hp)].
  { destruct (split crlf text) eqn:E; [by apply split_not_nil in E|discriminate]. }
  apply bind_Raise in Hp as [Hp|(method & _ & Hp)].
  { destruct (split (U " ") request_line) eqn:E;
      [by apply split_not_nil in E|discriminate]. }
  apply bind_Raise in Hp as [Hp|([uri others] & _ & Hp)].
  { right. right. destruct (_ <$> _); simpl in Hp; congruence. }
  apply bind_Raise in Hp as [Hp|([ep q] & _ & Hp)].
  { left. by apply parse_uri_Raise in Hp. }
  apply bind_Raise in Hp as [Hp|(hs & _ & [=])].
  left. by apply dict_of_Raise in Hp.
Qed.

(** X6. The parser raises nothing but [ValueError], [UnicodeDecodeError]
    and [StopIteration]: [words[0]] and [next(headerlines)] never fail. *)
Theorem doParse_exceptions (data : bytes) (e : exn) :
  HTTPRequest.doParse data = Raise e →
  e = ValueError ∨ e = UnicodeDecodeError ∨ e = StopIteration.
Proof. exact (doParse_Raise_cases data e). Qed.

Lemma doParse_exceptions_witness :
  HTTPRequest.doParse ([xff] ++ CRLF ++ CRLF) = Raise UnicodeDecodeError
  ∧ (UnicodeDecodeError = ValueError ∨ UnicodeDecodeError = UnicodeDecodeError
     ∨ UnicodeDecodeError = StopIteration).
Proof.
  assert (H : HTTPRequest.doParse ([xff] ++ CRLF ++ CRLF) = Raise UnicodeDecodeError)
    by (vm_compute; reflexivity).
  split; [exact H|]. exact (doParse_exceptions _ _ H).
Defined.

(** ** The request parser: the shape of the endpoint *)

Lemma lstrip_suffix {A} `{EqDecision A} (chars s : list A) :
  lstrip chars s `suffix_of` s.
Proof.
  induction s as [|a s IH]; simpl; [done|].
  case_bool_decide; [by apply suffix_cons_r|done].
Qed.

Lemma lstrip_not_startswith {A} `{EqDecision A} (chars s : list A) (c : A) :
  c ∈ chars → ¬ [c] `prefix_of` lstrip chars s.
Proof.
  intros Hc. induction s as [|a s IH]; simpl.
  - intros [k Hk]. discriminate.
  - case_bool_decide as Ha; [done|].
    intros Hp. apply prefix_cons_inv_1 in Hp as ->. done.
Qed.

Lemma rstrip_prefix {A} `{EqDecision A} (chars s : list A) :
  rstrip chars s `prefix_of` s.
Proof.
  unfold rstrip. apply prefix_suffix_reverse.
  rewrite reverse_involutive. apply lstrip_suffix.
Qed.

Lemma strip_not_startswith {A} `{EqDecision A} (chars s : list A) (c : A) :
  c ∈ chars → startswith [c] (strip chars s) = false.
Proof.
  intros Hc. apply startswith_false. intros Hp.
  apply (lstrip_not_startswith chars s c Hc).
  etrans; [exact Hp|]. apply rstrip_prefix.
Qed.

(** X7. The endpoint of a parsed request never starts with [/] and never
    holds a [?]. *)
Theorem doParse_endpoint_shape (data : bytes) (r : HTTPRequest.t) :
  HTTPRequest.doParse data = Ok r →
  startswith (U "/") (HTTPRequest.endpoint r) = false
  ∧ contains (U "?") (HTTPRequest.endpoint r) = false.
Proof.
  intros Hp. apply doParse_endpoint in Hp as (v & _ & He).
  assert (Hs : startswith (U "/") (strip (U "/") v) = false).
  { apply (strip_not_startswith (U "/") v 47%N). by left. }
  set (uri := strip (U "/") v) in *. simpl in He.
  destruct (find (U "?") uri) as [i|] eqn:Ef.
  - injection He as ->. split.
    + apply startswith_false. apply startswith_false in Hs.
      intros Hp. apply Hs. etrans; [exact Hp|]. apply prefix_take.
    + unfold contains. destruct (find (U "?") (take i uri)) as [j|] eqn:Ej; [|done].
      exfalso. apply find_Some in Ej.
      pose proof (f_equal length Ej) as Hlen.
      rewrite !length_app, length_take in Hlen. simpl in Hlen.
      assert (Hu : uri = take j (take i uri) ++ U "?"
                         ++ (drop (j + length (U "?")) (take i uri) ++ drop i uri)).
      { rewrite !(assoc_L (++)). rewrite <- (assoc_L (++) (take j _)).
        rewrite <- Ej. by rewrite take_drop. }
      pose proof (find_Some_min _ _ _ _ _ Ef Hu) as Hmin.
      rewrite !length_take in Hmin. rewrite !length_take in Hlen. lia.
  - injection He as ->. split; [done|]. unfold contains. by rewrite Ef.
Qed.

Lemma doParse_endpoint_shape_witness :
  let data := B "GET //a/b?x=/?y HTTP/1.1" ++ CRLF ++ CRLF in
  let r := HTTPRequest.mk (U "GET") (U "a/b") (Some {[ U "x" := U "/?y" ]})
             (U "1.1") ∅ [] in
  HTTPRequest.doParse data = Ok r
  ∧ startswith (U "/") (HTTPRequest.endpoint r) = false
  ∧ contains (U "?") (HTTPRequest.endpoint r) = false.
Proof.
  intros data r.
  assert (H : HTTPRequest.doParse data = Ok r) by (vm_compute; reflexivity).
  split; [exact H|]. exact (doParse_endpoint_shape data r H).
Defined.

(** ** The multipart decoder: cutting the body at the delimiters *)

Section SplitFacts.
Context {A : Type} `{EqDecision A}.
Implicit Types sep s : list A.

Lemma split_cons sep s i :
  sep ≠ [] → find sep s = Some i →
  split sep s = take i s :: split sep (drop (i + length sep) s).
Proof.
  intros Hsep Hf. unfold split.
  pose proof (find_Some_bound _ _ _ Hf) as Hb.
  assert (0 < length sep) by (destruct sep; [done|simpl; lia]).
  destruct (length s) as [|n] eqn:En; [lia|].
  cbn [split_max]. rewrite Hf. f_equal.
  apply split_max_enough; [done|rewrite length_drop; lia..].
Qed.

Lemma split_None sep s : find sep s = None → split sep s = [s].
Proof.
  intros Hf. unfold split. destruct (length s); [done|].
  cbn [split_max]. by rewrite Hf.
Qed.

(** [sep] occurs in [x ++ sep] at the end only. *)
Lemma find_first sep x t :
  (∀ p q, x ++ sep = p ++ sep ++ q → length x ≤ length p) →
  find sep (x ++ sep ++ t) = Some (length x).
Proof.
  intros Hx.
  assert (Hf : find sep (x ++ sep) = Some (length x)).
  { destruct (find sep (x ++ sep)) as [i|] eqn:Ef.
    - f_equal. pose proof (find_Some _ _ _ Ef) as Hs.
      pose proof (find_Some_bound _ _ _ Ef) as Hb. rewrite length_app in Hb.
      pose proof (Hx _ _ Hs) as Hle. rewrite length_take, length_app in Hle. lia.
    - exfalso. apply find_None in Ef. apply Ef. exists x, [].
      by rewrite (right_id_L [] (++)). }
  apply (find_app_suffix _ _ _ t) in Hf.
  rewrite <- length_app, take_ge in Hf by done.
  by rewrite <- (assoc_L (++)) in Hf.
Qed.

Lemma split_first sep x t :
  sep ≠ [] →
  (∀ p q, x ++ sep = p ++ sep ++ q → length x ≤ length p) →
  split sep (x ++ sep ++ t) = x :: split sep t.
Proof.
  intros Hsep Hx. rewrite (split_cons _ _ _ Hsep (find_first _ _ t Hx)).
  by rewrite take_app_length, drop_app_add', drop_app_length.
Qed.

End SplitFacts.

(** Cutting at the delimiters. *)
Lemma form_parts_cut
    (boundary preamble closing : bytes) (parts : list bytes) :
  let delimiter := B "--" ++ boundary in
  (∀ p q, preamble ++ delimiter = p ++ delimiter ++ q → length preamble ≤ length p) →
  Forall (λ part, ∀ p q, part ++ delimiter = p ++ delimiter ++ q →
                         length part ≤ length p) parts →
  (¬ ∃ p q, closing = p ++ delimiter ++ q) →
  FormData.form_parts boundary
    (preamble ++ concat ((λ part, delimiter ++ part) <$> parts) ++ delimiter ++ closing)
  = parts.
Proof.
  intros delimiter Hpre Hparts Hclosing.
  assert (Hsep : delimiter ≠ []) by done.
  unfold FormData.form_parts. fold delimiter. clearbody delimiter.
  assert (Hs : ∀ x, (∀ p q, x ++ delimiter = p ++ delimiter ++ q → length x ≤ length p) →
               split delimiter
                 (x ++ concat ((λ part, delimiter ++ part) <$> parts)
                    ++ delimiter ++ closing)
               = x :: parts ++ [closing]).
  { induction Hparts as [|part parts Hpart _ IH]; intros x Hx.
    - simpl. rewrite (split_first _ _ _ Hsep Hx). f_equal.
      apply split_None. by apply find_None.
    - rewrite fmap_cons. simpl. rewrite <- !(assoc_L (++)).
      rewrite (split_first _ _ _ Hsep Hx). f_equal. by apply IH. }
  rewrite (Hs _ Hpre).
  unfold slice_1_m1. simpl. rewrite length_app. simpl.
  replace (length parts + 1 - 0) with (S (length parts)) by lia. simpl.
  by rewrite take_app_length.
Qed.

(** X8. The parts of the decoder are the byte sequences between
    consecutive delimiters [--boundary]: what precedes the first delimiter
    and what follows the last one are dropped. *)
Theorem form_parts_between_delimiters
    (boundary preamble closing : bytes) (parts : list bytes) :
  let delimiter := B "--" ++ boundary in
  (∀ p q, preamble ++ delimiter = p ++ delimiter ++ q → length preamble ≤ length p) →
  Forall (λ part, ∀ p q, part ++ delimiter = p ++ delimiter ++ q →
                         length part ≤ length p) parts →
  (¬ ∃ p q, closing = p ++ delimiter ++ q) →
  FormData.form_parts boundary
    (preamble ++ concat ((λ part, delimiter ++ part) <$> parts) ++ delimiter ++ closing)
  = parts.
Proof. exact (form_parts_cut boundary preamble closing parts). Qed.

Lemma form_parts_between_delimiters_witness :
  FormData.form_parts (B "XYZ")
    ([] ++ concat ((λ part, (B "--" ++ B "XYZ") ++ part) <$> [B "one"; B "two"])
       ++ (B "--" ++ B "XYZ") ++ B "--")
  = [B "one"; B "two"].
Proof.
  apply (form_parts_between_delimiters (B "XYZ") [] (B "--") [B "one"; B "two"]).
  - intros p q Hpq. simpl. lia.
  - assert (Hocc : ∀ part : bytes,
               find (B "--" ++ B "XYZ") (part ++ B "--" ++ B "XYZ") = Some (length part) →
               ∀ p q, part ++ B "--" ++ B "XYZ" = p ++ (B "--" ++ B "XYZ") ++ q →
                      length part ≤ length p).
    { intros part Hf p q Hpq. by eapply find_Some_min. }
    repeat constructor; apply Hocc; vm_compute; reflexivity.
  - apply find_None. vm_compute. reflexivity.
Defined.

(** X9. A body with fewer than two delimiters (none at all, or only the
    opening one, as when the upload was cut short) raises nothing: the
    decoder returns without headers and without a payload. *)
Theorem FormData_without_closing_delimiter (data boundary : bytes) :
  let delimiter := B "--" ++ boundary in
  ((¬ ∃ p q, data = p ++ delimiter ++ q)
   ∨ ∃ preamble rest,
       data = preamble ++ delimiter ++ rest
       ∧ (∀ p q, preamble ++ delimiter = p ++ delimiter ++ q →
                 length preamble ≤ length p)
       ∧ ¬ ∃ p q, rest = p ++ delimiter ++ q) →
  FormData.init data boundary = Ok (FormData.mk boundary None None).
Proof.
  intros delimiter Hd.
  assert (Hsep : delimiter ≠ []) by done.
  unfold FormData.init, FormData.doParse, FormData.form_parts. simpl FormData.boundary.
  fold delimiter. clearbody delimiter.
  destruct Hd as [Hno|(preamble & rest & -> & Hpre & Hrest)].
  - apply find_None in Hno. by rewrite (split_None _ _ Hno).
  - rewrite (split_first _ _ _ Hsep Hpre).
    apply find_None in Hrest. by rewrite (split_None _ _ Hrest).
Qed.

Lemma FormData_without_closing_delimiter_witness :
  FormData.init (B "--XYZ" ++ CRLF ++ disposition (B "a.txt") ++ CRLF ++ CRLF ++ B "hel")
    (B "XYZ")
  = Ok (FormData.mk (B "XYZ") None None).
Proof.
  apply FormData_without_closing_delimiter. right.
  exists [], (CRLF ++ disposition (B "a.txt") ++ CRLF ++ CRLF ++ B "hel").
  split; [reflexivity|]. split.
  - intros p q _. simpl. lia.
  - apply find_None. vm_compute. reflexivity.
Defined.

(** X10. A part without an empty line stops the decoder with
    [ValueError], whatever the parts after it are. *)
Theorem FormData_part_without_blank_line
    (data boundary : bytes) (parts : list bytes) (part : bytes) (rest : list bytes) :
  FormData.form_parts boundary data = parts ++ part :: rest →
  Forall (λ p, is_Ok (FormData.doParse_part (FormData.mk boundary None None) p)) parts →
  (¬ ∃ pre post, part = pre ++ (CRLF ++ CRLF) ++ post) →
  FormData.init data boundary = Raise ValueError.
Proof.
  intros Hparts Hok Hno. unfold FormData.init, FormData.doParse. simpl FormData.boundary.
  rewrite Hparts. apply doParse_loop_Raise; [done|].
  unfold FormData.doParse_part. by rewrite (split_max_1_None _ _ Hno).
Qed.

Lemma FormData_part_without_blank_line_witness :
  FormData.init (B "--XYZ" ++ CRLF ++ B "hello" ++ CRLF ++ B "--XYZ--" ++ CRLF) (B "XYZ")
  = Raise ValueError.
Proof.
  apply (FormData_part_without_blank_line _ _ [] (CRLF ++ B "hello" ++ CRLF) []).
  - vm_compute. reflexivity.
  - constructor.
  - apply find_None. vm_compute. reflexivity.
Defined.

(** ** Reading a connection *)

Lemma recvall_loop_stops (sock : nat → TCPServer.recv_result) (rest : list bytes) :
  ∀ fuel i fragments,
    (∀ j c, rest !! j = Some c → sock (i + j) = TCPServer.Chunk c ∧ c ≠ []) →
    (sock (i + length rest) = TCPServer.Timeout
     ∨ sock (i + length rest) = TCPServer.Chunk []) →
    length rest < fuel →
    TCPServer.recvall_loop fuel sock i fragments = Some (concat (fragments ++ rest)).
Proof.
  induction rest as [|c rest IH]; intros fuel i fragments Hchunks Hstop Hfuel.
  - destruct fuel as [|fuel]; [simpl in Hfuel; lia|]. simpl.
    rewrite Nat.add_0_r in Hstop. rewrite (right_id_L [] (++)).
    by destruct Hstop as [-> | ->].
  - destruct fuel as [|fuel]; [simpl in Hfuel; lia|]. simpl.
    destruct (Hchunks 0 c eq_refl) as [Hc Hne]. rewrite Nat.add_0_r in Hc.
    rewrite Hc. rewrite bool_decide_eq_false_2 by done.
    rewrite (IH fuel (S i) (fragments ++ [c])).
    + by rewrite <- (assoc_L (++)).
    + intros j c' Hj. replace (S i + j) with (i + S j) by lia. by apply Hchunks.
    + simpl in Hstop. by replace (S i + length rest) with (i + S (length rest)) by lia.
    + simpl in Hfuel. lia.
Qed.

(** X11. [recvall] returns the chunks received before the first timeout or
    empty read, joined in order, and ends there: nothing that the peer
    sends after a pause of a second is read. *)
Theorem recvall_until_pause
    (sock : nat → TCPServer.recv_result) (chunks : list bytes) (fuel : nat) :
  (∀ i c, chunks !! i = Some c → sock i = TCPServer.Chunk c ∧ c ≠ []) →
  (sock (length chunks) = TCPServer.Timeout
   ∨ sock (length chunks) = TCPServer.Chunk []) →
  length chunks < fuel →
  TCPServer.recvall fuel sock = Some (concat chunks).
Proof.
  intros Hchunks Hstop Hfuel. unfold TCPServer.recvall.
  by rewrite (recvall_loop_stops sock chunks fuel 0 []).
Qed.

Lemma recvall_until_pause_witness :
  TCPServer.recvall 3
    (λ i, match i with
          | 0 => TCPServer.Chunk (B "POST /upload HTTP/1.1")
          | 1 => TCPServer.Chunk (CRLF ++ CRLF ++ B "first half")
          | 2 => TCPServer.Timeout
          | _ => TCPServer.Chunk (B "second half")
          end)
  = Some (B "POST /upload HTTP/1.1" ++ CRLF ++ CRLF ++ B "first half").
Proof.
  apply (recvall_until_pause _
           [B "POST /upload HTTP/1.1"; CRLF ++ CRLF ++ B "first half"] 3).
  - intros [|[|i]] c Hc; simpl in Hc; try discriminate; by injection Hc as <-.
  - by left.
  - simpl. lia.
Defined.

(** ** The replies of the handlers *)

Lemma encode_ascii (s : str) :
  Forall (λ c, (c < 128)%N) s → ∃ b, encode s = Ok b ∧ latin1 b = s.
Proof.
  intros Hs.
  assert (Hb : ∃ b : bytes, latin1 b = s ∧ Forall (λ x, (Byte.to_N x < 128)%N) b).
  { induction Hs as [|c s Hc _ (b & <- & Hb)].
    - by exists [].
    - destruct (Byte.of_N c) as [x|] eqn:Ex.
      + apply Byte.to_of_N in Ex. exists (x :: b). split.
        * unfold latin1. by rewrite fmap_cons, Ex.
        * constructor; [by rewrite Ex|done].
      + apply Byte.of_N_None_iff in Ex. lia. }
  destruct Hb as (b & <- & Hb). exists b. split; [|done]. by apply encode_latin1.
Qed.

Lemma hex_digit_ascii (x : N) : (HTTPServer.hex_digit (N.land x 15) < 128)%N.
Proof.
  assert (N.land x 15 < 16)%N.
  { change 15%N with (N.ones 4). rewrite N.land_ones. by apply N.mod_lt. }
  unfold HTTPServer.hex_digit. case_match; lia.
Qed.

Lemma u_escape_ascii (n : N) : Forall (λ c, (c < 128)%N) (HTTPServer.u_escape n).
Proof. unfold HTTPServer.u_escape. repeat constructor; apply hex_digit_ascii. Qed.

Lemma json_escape_char_ascii (c : N) :
  Forall (λ c, (c < 128)%N) (HTTPServer.json_escape_char c).
Proof.
  unfold HTTPServer.json_escape_char.
  destruct (between 32 126 c) eqn:Eb.
  - unfold between in Eb. apply andb_true_iff in Eb as [_ Eb]. apply N.leb_le in Eb.
    repeat case_match; try (by repeat constructor).
    constructor; [lia|constructor].
  - repeat case_match; try (by repeat constructor); try apply u_escape_ascii.
    apply Forall_app. split; apply u_escape_ascii.
Qed.

Lemma json_str_esc_ascii (s : str) :
  Forall (λ c, (c < 128)%N) (HTTPServer.json_str_esc s).
Proof.
  unfold HTTPServer.json_str_esc. repeat (apply Forall_app; split);
    try (by repeat constructor).
  induction s as [|c s IH]; [constructor|].
  rewrite fmap_cons. simpl. apply Forall_app. split; [|done].
  apply json_escape_char_ascii.
Qed.

Lemma str_of_int_ascii (z : Z) : Forall (λ c, (c < 128)%N) (HTTPServer.str_of_int z).
Proof.
  unfold HTTPServer.str_of_int, U, latin1. apply Forall_fmap.
  eapply Forall_impl; [apply pretty_Z_ascii|]. done.
Qed.

Lemma json_val_esc_ascii (v : HTTPServer.pyval) :
  Forall (λ c, (c < 128)%N) (HTTPServer.json_val_esc v).
Proof.
  destruct v as [z|[]|s]; simpl.
  - apply str_of_int_ascii.
  - by repeat constructor.
  - by repeat constructor.
  - apply json_str_esc_ascii.
Qed.

Lemma json_dumps_esc_ascii (d : HTTPServer.odict HTTPServer.pyval) :
  Forall (λ c, (c < 128)%N) (HTTPServer.json_dumps_esc d).
Proof.
  unfold HTTPServer.json_dumps_esc.
  apply Forall_app. split; [by repeat constructor|].
  apply Forall_app. split; [|by repeat constructor].
  induction d as [|[k v] d IH]; [constructor|].
  destruct d as [|kv d].
  - change (HTTPServer.json_items_esc [(k, v)])
      with (HTTPServer.json_str_esc k ++ U ": " ++ HTTPServer.json_val_esc v).
    apply Forall_app. split; [apply json_str_esc_ascii|].
    apply Forall_app. split; [by repeat constructor|apply json_val_esc_ascii].
  - change (HTTPServer.json_items_esc ((k, v) :: kv :: d))
      with (HTTPServer.json_str_esc k ++ U ": " ++ HTTPServer.json_val_esc v
              ++ U ", " ++ HTTPServer.json_items_esc (kv :: d)).
    apply Forall_app. split; [apply json_str_esc_ascii|].
    apply Forall_app. split; [by repeat constructor|].
    apply Forall_app. split; [apply json_val_esc_ascii|].
    apply Forall_app. split; [by repeat constructor|exact IH].
Qed.

(** [json.dumps] always gives ASCII text, which [encode] turns into the
    bytes of the same values. *)
Lemma encode_json_dumps_esc (d : HTTPServer.odict HTTPServer.pyval) :
  ∃ respbody, encode (HTTPServer.json_dumps_esc d) = Ok respbody
            ∧ latin1 respbody = HTTPServer.json_dumps_esc d.
Proof. apply encode_ascii, json_dumps_esc_ascii. Qed.

(** One step of the error monad on a value. *)
Ltac bind_step :=
  match goal with
  | |- context [Ok ?x ≫= ?f] => change (Ok x ≫= f) with (f x); cbv beta
  end.

(** How a handler finishes: the status line of the stored status, the two
    standard headers, an empty line and the dumped dictionary. *)
Lemma craft_reply {fs} (files : fs) (R R2 d : HTTPServer.odict HTTPServer.pyval)
    (z : Z) (line : bytes) :
  HTTPServer.getitem (U "status") R = Ok (HTTPServer.PInt z) →
  HTTPServer.response_line (HTTPServer.PInt z) = Ok line →
  HTTPServer.delitem (U "status") R2 = Ok d →
  ∃ respbody,
    latin1 respbody = HTTPServer.json_dumps_esc d
    ∧ HTTPServer.reply
        (status ← HTTPServer.getitem (U "status") R;
         response_line ← HTTPServer.response_line status;
         response_headers ← HTTPServer.response_headers None;
         response ← HTTPServer.delitem (U "status") R2;
         respbody ← encode (HTTPServer.json_dumps_esc response);
         Ok (response_line ++ response_headers ++ HTTPServer.BLANK_LINE ++ respbody))
        files
      = HTTPServer.Reply
          (line ++ B "Server: KeremenciServer" ++ CRLF
             ++ B "Content-Type: application/json" ++ CRLF ++ CRLF ++ respbody)
          files.
Proof.
  intros H1 H2 H3.
  destruct (encode_json_dumps_esc d) as (respbody & He & Hl).
  exists respbody. split; [done|].
  rewrite H1. bind_step. rewrite H2. bind_step.
  change (HTTPServer.response_headers None)
    with (Ok (B "Server: KeremenciServer" ++ CRLF
                ++ B "Content-Type: application/json" ++ CRLF)).
  bind_step. rewrite H3. bind_step. rewrite He. bind_step.
  unfold HTTPServer.reply. by f_equal.
Qed.

Section FileHandlers.
Context {fs : Type}.
Variable uploaddir : str.
Variable os_listdir : str → fs → option (list str).
Variable os_remove : str → fs → option fs.
Variable os_rename : str → str → fs → option fs.
Variable read_file : str → fs → option bytes.
Variable guess_type : str → option str.

(** X12. When the file is in the upload directory and [os.remove]
    succeeds, the reply of [handle_remove] still has the status line
    [500 Internal Server Error] (the status is never set to 200), with the
    message [File successfully deleted]; the file system is the one that
    [os.remove] leaves. *)
Theorem handle_remove_success
    (request : HTTPRequest.t) (q : gmap str str) (fn : str) (names : list str)
    (files files' : fs) :
  HTTPRequest.qparams request = Some q →
  q !! U "fileName" = Some fn →
  os_listdir uploaddir files = Some names →
  fn ∈ names →
  os_remove (HTTPServer.path_join uploaddir fn) files = Some files' →
  ∃ respbody,
    latin1 respbody
    = HTTPServer.json_dumps_esc
        [(U "message", HTTPServer.PStr (U "File successfully deleted"));
         (U "filepath", HTTPServer.PStr (HTTPServer.path_join (U "files") fn))]
    ∧ HTTPServer.handle_remove uploaddir os_listdir os_remove request files
      = HTTPServer.Reply
          (B "HTTP/1.1 500 Internal Server Error" ++ CRLF
             ++ B "Server: KeremenciServer" ++ CRLF
             ++ B "Content-Type: application/json" ++ CRLF
             ++ CRLF ++ respbody)
          files'.
Proof.
  intros Hq Hk Hl Hin Hr.
  unfold HTTPServer.handle_remove, HTTPServer.qparams_item.
  rewrite Hq, Hk, Hl. cbv zeta.
  rewrite bool_decide_eq_false_2 by (intros Hn; by apply Hn).
  rewrite Hr.
  set (filepath := HTTPServer.path_join (U "files") fn).
  eapply (craft_reply files' _ _
            [(U "message", HTTPServer.PStr (U "File successfully deleted"));
             (U "filepath", HTTPServer.PStr filepath)]
            500 (B "HTTP/1.1 500 Internal Server Error" ++ CRLF));
    vm_compute; reflexivity.
Qed.

(** X13. The same holds for [handle_rename]: after a successful
    [os.rename] of [files/<old>] to [files/<new>] the status line is
    [500 Internal Server Error], with the message
    [Filename successfully changed]. *)
Theorem handle_rename_success
    (request : HTTPRequest.t) (q : gmap str str) (oldfn newfn : str)
    (names : list str) (files files' : fs) :
  HTTPRequest.qparams request = Some q →
  q !! U "oldFileName" = Some oldfn →
  q !! U "newName" = Some newfn →
  os_listdir uploaddir files = Some names →
  oldfn ∈ names →
  os_rename (HTTPServer.path_join (U "files") oldfn)
    (HTTPServer.path_join (U "files") newfn) files = Some files' →
  ∃ respbody,
    latin1 respbody
    = HTTPServer.json_dumps_esc
        [(U "message", HTTPServer.PStr (U "Filename successfully changed"));
         (U "oldpath", HTTPServer.PStr (HTTPServer.path_join (U "files") oldfn));
         (U "newpath", HTTPServer.PStr (HTTPServer.path_join (U "files") newfn))]
    ∧ HTTPServer.handle_rename uploaddir os_listdir os_rename request files
      = HTTPServer.Reply
          (B "HTTP/1.1 500 Internal Server Error" ++ CRLF
             ++ B "Server: KeremenciServer" ++ CRLF
             ++ B "Content-Type: application/json" ++ CRLF
             ++ CRLF ++ respbody)
          files'.
Proof.
  intros Hq Hold Hnew Hl Hin Hr.
  unfold HTTPServer.handle_rename, HTTPServer.qparams_item.
  rewrite Hq, Hold, Hnew. cbv zeta. repeat bind_step. rewrite Hl.
  rewrite bool_decide_eq_false_2 by (intros Hn; by apply Hn).
  rewrite Hr.
  set (oldpath := HTTPServer.path_join (U "files") oldfn).
  set (newpath := HTTPServer.path_join (U "files") newfn).
  eapply (craft_reply files' _ _
            [(U "message", HTTPServer.PStr (U "Filename successfully changed"));
             (U "oldpath", HTTPServer.PStr oldpath);
             (U "newpath", HTTPServer.PStr newpath)]
            500 (B "HTTP/1.1 500 Internal Server Error" ++ CRLF));
    vm_compute; reflexivity.
Qed.

(** X14. A file name that is not in the upload directory is answered with
    [200 OK] and the message [File Not Found] by the three handlers, and
    nothing is removed, renamed or read. *)
Theorem handlers_file_not_found
    (request : HTTPRequest.t) (q : gmap str str) (names : list str) (files : fs) :
  HTTPRequest.qparams request = Some q →
  os_listdir uploaddir files = Some names →
  let not_found :=
    HTTPServer.Reply
      (B "HTTP/1.1 200 OK" ++ CRLF
         ++ B "Server: KeremenciServer" ++ CRLF
         ++ B "Content-Type: application/json" ++ CRLF
         ++ CRLF
         ++ B "{" ++ quoted (B "message") ++ B ": " ++ quoted (B "File Not Found")
         ++ B "}")
      files in
  (∀ fn, q !! U "fileName" = Some fn → fn ∉ names →
     HTTPServer.handle_remove uploaddir os_listdir os_remove request files = not_found
     ∧ HTTPServer.handle_download uploaddir os_listdir read_file guess_type
         request files = not_found)
  ∧ (∀ oldfn newfn,
       q !! U "oldFileName" = Some oldfn → q !! U "newName" = Some newfn →
       oldfn ∉ names →
       HTTPServer.handle_rename uploaddir os_listdir os_rename request files
       = not_found).
Proof.
  intros Hq Hl not_found. split.
  - intros fn Hk Hn.
    unfold HTTPServer.handle_remove, HTTPServer.handle_download,
      HTTPServer.qparams_item.
    rewrite Hq, Hk, Hl. cbv zeta. rewrite bool_decide_eq_true_2 by done.
    split; vm_compute; reflexivity.
  - intros oldfn newfn Hold Hnew Hn.
    unfold HTTPServer.handle_rename, HTTPServer.qparams_item.
    rewrite Hq, Hold, Hnew. cbv zeta. repeat bind_step. rewrite Hl.
    rewrite bool_decide_eq_true_2 by done.
    vm_compute. reflexivity.
Qed.

(** X15. With a query string that lacks the parameter, the three handlers
    answer [400 Bad Request]: [Missing filename parameter] for a removal
    or a download without [fileName], [Invalid parameters] for a renaming
    without [oldFileName] or without [newName]. *)
Theorem handlers_missing_parameter
    (request : HTTPRequest.t) (q : gmap str str) (files : fs) :
  HTTPRequest.qparams request = Some q →
  let bad_request message :=
    HTTPServer.Reply
      (B "HTTP/1.1 400 Bad Request" ++ CRLF
         ++ B "Server: KeremenciServer" ++ CRLF
         ++ B "Content-Type: application/json" ++ CRLF
         ++ CRLF
         ++ B "{" ++ quoted (B "message") ++ B ": " ++ quoted (B message) ++ B "}")
      files in
  (q !! U "fileName" = None →
     HTTPServer.handle_remove uploaddir os_listdir os_remove request files
     = bad_request "Missing filename parameter"
     ∧ HTTPServer.handle_download uploaddir os_listdir read_file guess_type
         request files
       = bad_request "Missing filename parameter")
  ∧ (q !! U "oldFileName" = None ∨ q !! U "newName" = None →
     HTTPServer.handle_rename uploaddir os_listdir os_rename request files
     = bad_request "Invalid parameters").
Proof.
  intros Hq bad_request. split.
  - intros Hk.
    unfold HTTPServer.handle_remove, HTTPServer.handle_download,
      HTTPServer.qparams_item.
    rewrite Hq, Hk. split; vm_compute; reflexivity.
  - intros Hk. unfold HTTPServer.handle_rename, HTTPServer.qparams_item.
    rewrite Hq. destruct Hk as [Hk|Hk].
    + rewrite Hk. vm_compute. reflexivity.
    + rewrite Hk. destruct (q !! U "oldFileName"); vm_compute; reflexivity.
Qed.

(** X16. Without any query string the three handlers answer nothing:
    subscripting [None] raises [TypeError], which their
    [except KeyError] does not catch. *)
Theorem handlers_without_query_string (request : HTTPRequest.t) (files : fs) :
  HTTPRequest.qparams request = None →
  HTTPServer.handle_remove uploaddir os_listdir os_remove request files
  = HTTPServer.Uncaught TypeError
  ∧ HTTPServer.handle_rename uploaddir os_listdir os_rename request files
    = HTTPServer.Uncaught TypeError
  ∧ HTTPServer.handle_download uploaddir os_listdir read_file guess_type request files
    = HTTPServer.Uncaught TypeError.
Proof.
  intros Hq.
  unfold HTTPServer.handle_remove, HTTPServer.handle_rename,
    HTTPServer.handle_download, HTTPServer.qparams_item.
  by rewrite Hq.
Qed.



End FileHandlers.

(** ** The dispatcher *)

Section Dispatcher.
Context {fs : Type}.
Variable uploaddir : str.
Variable os_listdir : str → fs → option (list str).
Variable os_remove : str → fs → option fs.
Variable os_rename : str → str → fs → option fs.
Variable read_file : str → fs → option bytes.
Variable guess_type : str → option str.
Variable upload_multipart : HTTPRequest.t → fs → HTTPServer.outcome fs.
Variable int_of_str : str → result Z.
Variable int_sqrt_far : Z → result Z.

(** X18. An upload whose headers have no [Content-Type] (under this very
    spelling), or one without [multipart/form-data] in it, is answered with
    [400 Bad Request] and [An error occurred]; no file is written. *)
Theorem handle_upload_not_multipart (request : HTTPRequest.t) (files : fs) :
  (HTTPRequest.headers request !! U "Content-Type" = None
   ∨ ∃ v, HTTPRequest.headers request !! U "Content-Type" = Some v
        ∧ contains (U "multipart/form-data") v = false) →
  HTTPServer.handle_upload upload_multipart request files
  = HTTPServer.Reply
      (B "HTTP/1.1 400 Bad Request" ++ CRLF
         ++ B "Server: KeremenciServer" ++ CRLF
         ++ B "Content-Type: application/json" ++ CRLF
         ++ CRLF
         ++ B "{" ++ quoted (B "message") ++ B ": " ++ quoted (B "An error occurred")
         ++ B "}")
      files.
Proof.
  unfold HTTPServer.handle_upload. cbv zeta.
  intros [Hh|(v & Hh & Hv)]; unfold str in *; rewrite Hh.
  - vm_compute. reflexivity.
  - rewrite Hv. vm_compute. reflexivity.
Qed.

(** X19. A parsed request whose method and endpoint are none of the five
    routes is answered with [404 Not Found]; the file system is left as
    it is. *)
Theorem handle_request_not_found (data : bytes) (r : HTTPRequest.t) (files : fs) :
  HTTPRequest.doParse data = Ok r →
  HTTPRequest.method r ++ U "-" ++ HTTPRequest.endpoint r
    ∉ [U "GET-isPrime"; U "POST-upload"; U "PUT-rename"; U "DELETE-remove";
       U "GET-download"] →
  HTTPServer.handle_request uploaddir os_listdir os_remove os_rename read_file
    guess_type upload_multipart int_of_str int_sqrt_far data files
  = HTTPServer.Reply
      (B "HTTP/1.1 404 Not Found" ++ CRLF
         ++ B "Server: KeremenciServer" ++ CRLF
         ++ B "Content-Type: application/json" ++ CRLF
         ++ CRLF
         ++ B "{" ++ quoted (B "message") ++ B ": " ++ quoted (B "Not Found") ++ B "}")
      files.
Proof.
  intros Hp Hkey. unfold HTTPServer.handle_request. rewrite Hp.
  set (key := HTTPRequest.method r ++ U "-" ++ HTTPRequest.endpoint r) in *.
  assert (Hg : HTTPServer.getitem key
                 (HTTPServer.handlers uploaddir os_listdir os_remove os_rename
                    read_file guess_type upload_multipart int_of_str int_sqrt_far)
               = Raise KeyError).
  { clearbody key. unfold HTTPServer.handlers. cbn [HTTPServer.getitem].
    repeat (case_decide as Hk;
            [exfalso; apply Hkey; rewrite <- Hk, !elem_of_cons; auto 10|clear Hk]).
    done. }
  cbv zeta. rewrite Hg. vm_compute. reflexivity.
Qed.

(** X20. Whatever [doParse] raises leaves [handle_request] uncaught: a
    malformed request gets no reply from it, not even [400]. *)
Theorem handle_request_malformed (data : bytes) (e : exn) (files : fs) :
  HTTPRequest.doParse data = Raise e →
  HTTPServer.handle_request uploaddir os_listdir os_remove os_rename read_file
    guess_type upload_multipart int_of_str int_sqrt_far data files
  = HTTPServer.Uncaught e
  ∧ (e = ValueError ∨ e = UnicodeDecodeError ∨ e = StopIteration).
Proof.
  intros Hp. split; [|by eapply doParse_Raise_cases].
  unfold HTTPServer.handle_request. by rewrite Hp.
Qed.

(** The route of the isPrime handler. *)
Lemma handle_request_is_prime (data : bytes) (r : HTTPRequest.t) (files : fs) :
  HTTPRequest.doParse data = Ok r →
  HTTPRequest.method r = U "GET" →
  HTTPRequest.endpoint r = U "isPrime" →
  HTTPServer.handle_request uploaddir os_listdir os_remove os_rename read_file
    guess_type upload_multipart int_of_str int_sqrt_far data files
  = HTTPServer.reply (HTTPServer.handle_is_prime int_of_str int_sqrt_far r) files.
Proof.
  intros Hp Hm He. unfold HTTPServer.handle_request. by rewrite Hp, Hm, He.
Qed.

End Dispatcher.

(** ** The handlers on an example directory *)

Lemma handle_remove_success_witness :
  ∃ respbody,
    latin1 respbody
    = HTTPServer.json_dumps_esc
        [(U "message", HTTPServer.PStr (U "File successfully deleted"));
         (U "filepath", HTTPServer.PStr (HTTPServer.path_join (U "files") (U "a.txt")))]
    ∧ HTTPServer.handle_remove Disk.uploaddir Disk.os_listdir Disk.os_remove
        (Disk.request "DELETE" "remove" (Some {[ U "fileName" := U "a.txt" ]}))
        Disk.files
      = HTTPServer.Reply
          (B "HTTP/1.1 500 Internal Server Error" ++ CRLF
             ++ B "Server: KeremenciServer" ++ CRLF
             ++ B "Content-Type: application/json" ++ CRLF
             ++ CRLF ++ respbody)
          [(U "b.bin", [x00; xff])].
Proof.
  refine (handle_remove_success Disk.uploaddir Disk.os_listdir Disk.os_remove
            _ {[ U "fileName" := U "a.txt" ]} (U "a.txt") [U "a.txt"; U "b.bin"]
            Disk.files _ _ _ _ _ _).
  - reflexivity.
  - vm_compute. reflexivity.
  - vm_compute. reflexivity.
  - by left.
  - vm_compute. reflexivity.
Defined.

Lemma handle_rename_success_witness :
  ∃ respbody,
    latin1 respbody
    = HTTPServer.json_dumps_esc
        [(U "message", HTTPServer.PStr (U "Filename successfully changed"));
         (U "oldpath", HTTPServer.PStr (HTTPServer.path_join (U "files") (U "a.txt")));
         (U "newpath", HTTPServer.PStr (HTTPServer.path_join (U "files") (U "c.txt")))]
    ∧ HTTPServer.handle_rename Disk.uploaddir Disk.os_listdir Disk.os_rename
        (Disk.request "PUT" "rename"
           (Some {[ U "oldFileName" := U "a.txt"; U "newName" := U "c.txt" ]}))
        Disk.files
      = HTTPServer.Reply
          (B "HTTP/1.1 500 Internal Server Error" ++ CRLF
             ++ B "Server: KeremenciServer" ++ CRLF
             ++ B "Content-Type: application/json" ++ CRLF
             ++ CRLF ++ respbody)
          [(U "c.txt", B "alpha"); (U "b.bin", [x00; xff])].
Proof.
  refine (handle_rename_success Disk.uploaddir Disk.os_listdir Disk.os_rename
            _ {[ U "oldFileName" := U "a.txt"; U "newName" := U "c.txt" ]}
            (U "a.txt") (U "c.txt") [U "a.txt"; U "b.bin"] Disk.files _ _ _ _ _ _ _).
  - reflexivity.
  - vm_compute. reflexivity.
  - vm_compute. reflexivity.
  - vm_compute. reflexivity.
  - by left.
  - vm_compute. reflexivity.
Defined.

Lemma handlers_file_not_found_witness :
  HTTPServer.handle_remove Disk.uploaddir Disk.os_listdir Disk.os_remove
    (Disk.request "DELETE" "remove" (Some {[ U "fileName" := U "z.txt" ]})) Disk.files
  = HTTPServer.Reply
      (B "HTTP/1.1 200 OK" ++ CRLF
         ++ B "Server: KeremenciServer" ++ CRLF
         ++ B "Content-Type: application/json" ++ CRLF
         ++ CRLF
         ++ B "{" ++ quoted (B "message") ++ B ": " ++ quoted (B "File Not Found")
         ++ B "}")
      Disk.files.
Proof.
  refine (proj1 (proj1 (handlers_file_not_found Disk.uploaddir Disk.os_listdir
                          Disk.os_remove Disk.os_rename Disk.read_file Disk.guess_type
                          _ {[ U "fileName" := U "z.txt" ]} [U "a.txt"; U "b.bin"]
                          Disk.files _ _)
                   (U "z.txt") _ _)).
  - reflexivity.
  - vm_compute. reflexivity.
  - vm_compute. reflexivity.
  - rewrite !elem_of_cons, elem_of_nil. intros [H|[H|[]]]; discriminate H.
Defined.

Lemma handlers_missing_parameter_witness :
  HTTPServer.handle_rename Disk.uploaddir Disk.os_listdir Disk.os_rename
    (Disk.request "PUT" "rename" (Some {[ U "oldFileName" := U "a.txt" ]})) Disk.files
  = HTTPServer.Reply
      (B "HTTP/1.1 400 Bad Request" ++ CRLF
         ++ B "Server: KeremenciServer" ++ CRLF
         ++ B "Content-Type: application/json" ++ CRLF
         ++ CRLF
         ++ B "{" ++ quoted (B "message") ++ B ": " ++ quoted (B "Invalid parameters")
         ++ B "}")
      Disk.files.
Proof.
  refine (proj2 (handlers_missing_parameter Disk.uploaddir Disk.os_listdir
                   Disk.os_remove Disk.os_rename Disk.read_file Disk.guess_type
                   _ {[ U "oldFileName" := U "a.txt" ]} Disk.files _) _).
  - reflexivity.
  - right. vm_compute. reflexivity.
Defined.

Lemma handlers_without_query_string_witness :
  HTTPServer.handle_remove Disk.uploaddir Disk.os_listdir Disk.os_remove
    (Disk.request "DELETE" "remove" None) Disk.files
  = HTTPServer.Uncaught TypeError
  ∧ HTTPServer.handle_rename Disk.uploaddir Disk.os_listdir Disk.os_rename
      (Disk.request "DELETE" "remove" None) Disk.files
    = HTTPServer.Uncaught TypeError
  ∧ HTTPServer.handle_download Disk.uploaddir Disk.os_listdir Disk.read_file
      Disk.guess_type (Disk.request "DELETE" "remove" None) Disk.files
    = HTTPServer.Uncaught TypeError.
Proof.
  exact (handlers_without_query_string Disk.uploaddir Disk.os_listdir Disk.os_remove
           Disk.os_rename Disk.read_file Disk.guess_type
           (Disk.request "DELETE" "remove" None) Disk.files eq_refl).
Defined.


Lemma handle_upload_not_multipart_witness :
  HTTPServer.handle_upload Disk.upload_multipart
    (HTTPRequest.mk (U "POST") (U "upload") None (U "1.1")
       {[ U "content-type" := U "multipart/form-data; boundary=XYZ" ]} [])
    Disk.files
  = HTTPServer.Reply
      (B "HTTP/1.1 400 Bad Request" ++ CRLF
         ++ B "Server: KeremenciServer" ++ CRLF
         ++ B "Content-Type: application/json" ++ CRLF
         ++ CRLF
         ++ B "{" ++ quoted (B "message") ++ B ": " ++ quoted (B "An error occurred")
         ++ B "}")
      Disk.files.
Proof.
  apply handle_upload_not_multipart. left. vm_compute. reflexivity.
Defined.

Lemma handle_request_not_found_witness :
  HTTPServer.handle_request Disk.uploaddir Disk.os_listdir Disk.os_remove
    Disk.os_rename Disk.read_file Disk.guess_type Disk.upload_multipart
    HTTPServer.int_of_decimal (λ _, Raise OverflowError)
    (B "GET /isPrime/?number=17 HTTP/1.1" ++ CRLF ++ CRLF) Disk.files
  = HTTPServer.Reply
      (B "HTTP/1.1 404 Not Found" ++ CRLF
         ++ B "Server: KeremenciServer" ++ CRLF
         ++ B "Content-Type: application/json" ++ CRLF
         ++ CRLF
         ++ B "{" ++ quoted (B "message") ++ B ": " ++ quoted (B "Not Found") ++ B "}")
      Disk.files.
Proof.
  refine (handle_request_not_found Disk.uploaddir Disk.os_listdir Disk.os_remove
            Disk.os_rename Disk.read_file Disk.guess_type Disk.upload_multipart
            HTTPServer.int_of_decimal (λ _, Raise OverflowError) _
            (HTTPRequest.mk (U "GET") (U "isPrime/") (Some {[ U "number" := U "17" ]})
               (U "1.1") ∅ [])
            Disk.files _ _).
  - vm_compute. reflexivity.
  - rewrite !elem_of_cons, elem_of_nil.
    intros [H|[H|[H|[H|[H|[]]]]]]; discriminate H.
Defined.

Lemma handle_request_malformed_witness :
  HTTPServer.handle_request Disk.uploaddir Disk.os_listdir Disk.os_remove
    Disk.os_rename Disk.read_file Disk.guess_type Disk.upload_multipart
    HTTPServer.int_of_decimal (λ _, Raise OverflowError)
    (B "GET /isPrime?number HTTP/1.1" ++ CRLF ++ CRLF) Disk.files
  = HTTPServer.Uncaught ValueError
  ∧ (ValueError = ValueError ∨ ValueError = UnicodeDecodeError
     ∨ ValueError = StopIteration).
Proof.
  refine (handle_request_malformed Disk.uploaddir Disk.os_listdir Disk.os_remove
            Disk.os_rename Disk.read_file Disk.guess_type Disk.upload_multipart
            HTTPServer.int_of_decimal (λ _, Raise OverflowError) _ ValueError
            Disk.files _).
  vm_compute. reflexivity.
Defined.

(** ** The multipart decoder: the header block of a part *)

Section FreeOf.
Context {A : Type} `{EqDecision A}.
Implicit Types sep x y : list A.

(** No occurrence of [c :: sep] starts inside a string without [c]. *)
Lemma find_skip (c : A) sep x y :
  c ∉ x → find (c :: sep) (x ++ y) = (λ i, length x + i) <$> find (c :: sep) y.
Proof.
  intros Hc. induction x as [|a x IH].
  - simpl app. by destruct (find (c :: sep) y).
  - apply not_elem_of_cons in Hc as [Hne Hc].
    change ((a :: x) ++ y) with (a :: (x ++ y)). rewrite find_unfold.
    destruct (startswith (c :: sep) (a :: x ++ y)) eqn:E.
    + apply startswith_true in E. apply prefix_cons_inv_1 in E. congruence.
    + rewrite (IH Hc). by destruct (find (c :: sep) y).
Qed.

Lemma find_free (c : A) sep x : c ∉ x → find (c :: sep) x = None.
Proof.
  intros Hc. rewrite <- (right_id_L [] (++) x), (find_skip c sep x [] Hc).
  rewrite find_unfold.
  destruct (startswith (c :: sep) []) eqn:E; [|done].
  apply startswith_true in E as [k Hk]. discriminate.
Qed.

Lemma find_after_free (c : A) sep x y :
  c ∉ x → find (c :: sep) (x ++ (c :: sep) ++ y) = Some (length x).
Proof.
  intros Hc. rewrite (find_skip c sep x _ Hc).
  rewrite (find_prefix (c :: sep) ((c :: sep) ++ y)) by (by apply prefix_app_r).
  simpl. f_equal. lia.
Qed.

(** Lines without [c], joined by [c :: sep], are split back. *)
Lemma split_lines (c : A) sep (first : list A) (lines : list (list A)) :
  c ∉ first → Forall (λ l, c ∉ l) lines →
  split (c :: sep) (first ++ concat ((λ l, (c :: sep) ++ l) <$> lines))
  = first :: lines.
Proof.
  intros Hf Hl. revert first Hf.
  induction Hl as [|l lines Hc _ IH]; intros first Hf.
  - simpl. rewrite (right_id_L [] (++)). apply split_None. by apply find_free.
  - rewrite fmap_cons. simpl concat. rewrite <- (assoc_L (++)).
    rewrite (split_cons _ _ (length first)); [|done|by apply find_after_free].
    rewrite take_app_length. f_equal.
    rewrite drop_app_add' by done.
    cbn [length drop]. rewrite drop_app_length. by apply IH.
Qed.

End FreeOf.

Lemma find_blank_line (first : bytes) (lines : list bytes) (rest : bytes) :
  CR ∉ first →
  Forall (λ l, l ≠ [] ∧ CR ∉ l) lines →
  find (CRLF ++ CRLF)
    (first ++ concat ((λ l, CRLF ++ l) <$> lines) ++ (CRLF ++ CRLF) ++ rest)
  = Some (length (first ++ concat ((λ l, CRLF ++ l) <$> lines))).
Proof.
  intros Hf Hl.
  assert (HR : find (CRLF ++ CRLF)
                 (concat ((λ l, CRLF ++ l) <$> lines) ++ (CRLF ++ CRLF) ++ rest)
               = Some (length (concat ((λ l, CRLF ++ l) <$> lines)))).
  { induction Hl as [|l lines [Hne Hc] _ IH].
    - apply find_prefix. by exists rest.
    - rewrite fmap_cons. cbn [concat]. rewrite <- !(assoc_L (++)).
      destruct l as [|a l]; [done|].
      apply not_elem_of_cons in Hc as [Ha Hc].
      change (CRLF ++ (a :: l) ++ ?r) with (CR :: LF :: a :: (l ++ r)).
      rewrite find_unfold.
      destruct (startswith (CRLF ++ CRLF) (CR :: LF :: a :: _)) eqn:E.
      { apply startswith_true in E as [k Hk]. injection Hk as Hk _. congruence. }
      rewrite find_unfold.
      destruct (startswith (CRLF ++ CRLF) (LF :: a :: _)) eqn:E'.
      { apply startswith_true in E' as [k Hk]. discriminate Hk. }
      change (a :: l ++ ?r) with ((a :: l) ++ r).
      change (CRLF ++ CRLF) with (CR :: [LF; CR; LF]) in *.
      rewrite (find_skip CR [LF; CR; LF] (a :: l)); [|by apply not_elem_of_cons].
      match goal with
      | |- context [find ?s ?t] =>
          replace (find s t)
            with (Some (length (concat ((λ l : list byte, CRLF ++ l) <$> lines))))
            by (symmetry; exact IH)
      end.
      simpl. rewrite !length_app. simpl. do 3 f_equal. }
  change (CRLF ++ CRLF) with (CR :: [LF; CR; LF]) in *.
  rewrite (find_skip CR [LF; CR; LF] first _ Hf), HR. simpl.
  by rewrite length_app.
Qed.

Lemma decode_headers_Ok (acc : gmap str str) (hs : list (bytes * bytes))
    (ks : list (str * str)) :
  Forall2 (λ h kv, decode h.1 = Ok kv.1 ∧ decode h.2 = Ok kv.2) hs ks →
  FormData.decode_headers acc ((λ h, [h.1; h.2]) <$> hs)
  = Ok (foldl (λ m kv, <[kv.1 := kv.2]> m) acc ks).
Proof.
  intros Hd. revert acc.
  induction Hd as [|[k v] [k' v'] hs ks [Hk Hv] _ IH]; intros acc; [done|].
  rewrite fmap_cons. simpl in *. rewrite Hk. bind_step. rewrite Hv. bind_step.
  apply IH.
Qed.

(** The loop body on a part of header lines and a payload. *)
Lemma doParse_part_lines
    (self : FormData.t) (first payload : bytes) (hs : list (bytes * bytes))
    (ks : list (str * str)) :
  CR ∉ first →
  Forall (λ h, (CR ∉ h.1) ∧ (CR ∉ h.2) ∧ (":"%byte ∉ h.1)
               ∧ ¬ ∃ p q, h.2 = p ++ B ": " ++ q) hs →
  Forall2 (λ h kv, decode h.1 = Ok kv.1 ∧ decode h.2 = Ok kv.2) hs ks →
  FormData.doParse_part self
    (first ++ concat ((λ h, CRLF ++ h.1 ++ B ": " ++ h.2) <$> hs)
       ++ (CRLF ++ CRLF) ++ payload)
  = Ok (FormData.mk (FormData.boundary self)
          (Some (foldl (λ m kv, <[kv.1 := kv.2]> m) ∅ ks)) (Some payload)).
Proof.
  intros Hfirst Hhs Hdec. unfold bytes in *.
  set (lines := (λ h : list byte * list byte, h.1 ++ B ": " ++ h.2) <$> hs).
  assert (Hcat : concat ((λ h : list byte * list byte,
                            CRLF ++ h.1 ++ B ": " ++ h.2) <$> hs)
                 = concat ((λ l, CRLF ++ l) <$> lines)).
  { unfold lines. by rewrite <- list_fmap_compose. }
  assert (Hlines : Forall (λ l : list byte, l ≠ [] ∧ CR ∉ l) lines).
  { unfold lines. apply Forall_fmap. eapply Forall_impl; [exact Hhs|].
    intros [k v] (Hk & Hv & _ & _). simpl in *. split.
    - intros Hnil. apply app_eq_nil in Hnil as [_ Hnil]. discriminate Hnil.
    - rewrite elem_of_app, !elem_of_cons.
      intros [?|[Hin|[Hin|?]]]; [done|discriminate|discriminate|done]. }
  rewrite Hcat. unfold FormData.doParse_part.
  pose proof (find_blank_line first lines payload Hfirst Hlines) as Hfind.
  set (tmpheaders := first ++ concat ((λ l, CRLF ++ l) <$> lines)) in *.
  assert (Hsplit : split_max 1 (CRLF ++ CRLF) (tmpheaders ++ (CRLF ++ CRLF) ++ payload)
                   = [tmpheaders; payload]).
  { apply (split_max_1_first _ _ payload). unfold tmpheaders.
    rewrite <- (assoc_L (++)). exact Hfind. }
  unfold tmpheaders in Hsplit. rewrite <- (assoc_L (++)) in Hsplit.
  rewrite Hsplit. simpl unpack2. bind_step. cbv beta iota zeta.
  assert (Hsl : split (CR :: [LF]) (first ++ concat ((λ l, (CR :: [LF]) ++ l) <$> lines))
                = first :: lines).
  { apply split_lines; [done|]. eapply Forall_impl; [exact Hlines|]. by intros l [_ Hl]. }
  match goal with
  | |- context [split ?s ?t] =>
      replace (split s t) with (first :: lines) by (symmetry; exact Hsl)
  end.
  cbn [drop].
  assert (Hpairs : split (B ": ") <$> lines
                   = (λ h : list byte * list byte, [h.1; h.2]) <$> hs).
  { unfold lines. rewrite <- list_fmap_compose. apply Forall_fmap_ext.
    eapply Forall_impl; [exact Hhs|]. intros [k v] (_ & _ & Hk & Hv).
    unfold compose. cbn [fst snd] in *.
    rewrite (split_cons (B ": ") (k ++ B ": " ++ v) (length k));
      [|done|exact (find_after_free ":"%byte [" "%byte] k v Hk)].
    rewrite take_app_length. f_equal.
    rewrite drop_app_add' by done.
    change (drop (length (B ": ")) (B ": " ++ v)) with v.
    apply split_None. by apply find_None. }
  assert (Hd : FormData.decode_headers ∅ (split (B ": ") <$> lines)
               = Ok (foldl (λ (m : gmap str str) (kv : str * str), <[kv.1 := kv.2]> m)
                       ∅ ks)).
  { rewrite Hpairs. exact (decode_headers_Ok ∅ hs ks Hdec). }
  match goal with
  | |- context [FormData.decode_headers ?a ?l] =>
      replace (FormData.decode_headers a l)
        with (Ok (foldl (λ (m : gmap str str) (kv : str * str), <[kv.1 := kv.2]> m)
                    ∅ ks))
        by (symmetry; exact Hd)
  end.
  by bind_step.
Qed.

(** X21. A part made of header lines [key: value] and a payload decodes to
    the mapping of the decoded lines (a later line of the same key
    replacing an earlier one) and to the payload, byte for byte. The line
    of the delimiter itself (what precedes the first line break) is
    dropped. This holds for keys and values without a carriage return,
    keys without a colon and values without [: ]. *)
Theorem doParse_part_decodes
    (self : FormData.t) (first payload : bytes) (hs : list (bytes * bytes))
    (ks : list (str * str)) :
  CR ∉ first →
  Forall (λ h, (CR ∉ h.1) ∧ (CR ∉ h.2) ∧ (":"%byte ∉ h.1)
               ∧ ¬ ∃ p q, h.2 = p ++ B ": " ++ q) hs →
  Forall2 (λ h kv, decode h.1 = Ok kv.1 ∧ decode h.2 = Ok kv.2) hs ks →
  FormData.doParse_part self
    (first ++ concat ((λ h, CRLF ++ h.1 ++ B ": " ++ h.2) <$> hs)
       ++ (CRLF ++ CRLF) ++ payload)
  = Ok (FormData.mk (FormData.boundary self)
          (Some (foldl (λ m kv, <[kv.1 := kv.2]> m) ∅ ks)) (Some payload)).
Proof. exact (doParse_part_lines self first payload hs ks). Qed.


Lemma doParse_part_decodes_witness :
  FormData.doParse_part (FormData.mk (B "XYZ") None None)
    ([] ++ concat ((λ h : bytes * bytes, CRLF ++ h.1 ++ B ": " ++ h.2)
                     <$> [(B "Content-Disposition", disposition_value (B "a.txt"));
                          (B "Content-Type", B "text/plain")])
       ++ (CRLF ++ CRLF) ++ B "hello" ++ CRLF)
  = Ok (FormData.mk (B "XYZ")
          (Some (foldl (λ (m : gmap str str) (kv : str * str), <[kv.1 := kv.2]> m) ∅
                   [(U "Content-Disposition", latin1 (disposition_value (B "a.txt")));
                    (U "Content-Type", U "text/plain")]))
          (Some (B "hello" ++ CRLF))).
Proof.
  apply (doParse_part_decodes (FormData.mk (B "XYZ") None None) [] (B "hello" ++ CRLF)
           [(B "Content-Disposition", disposition_value (B "a.txt"));
            (B "Content-Type", B "text/plain")]
           [(U "Content-Disposition", latin1 (disposition_value (B "a.txt")));
            (U "Content-Type", U "text/plain")]).
  - apply not_elem_of_nil.
  - assert (Hline : ∀ k v : bytes,
               bool_decide (CR ∈ k) = false → bool_decide (CR ∈ v) = false →
               bool_decide (":"%byte ∈ k) = false → find (B ": ") v = None →
               (CR ∉ k) ∧ (CR ∉ v) ∧ (":"%byte ∉ k) ∧ ¬ ∃ p q, v = p ++ B ": " ++ q).
    { intros k v H1 H2 H3 H4. apply bool_decide_eq_false in H1, H2, H3.
      by apply find_None in H4. }
    apply Forall_cons. split; [apply Hline; vm_compute; reflexivity|].
    apply Forall_cons. split; [apply Hline; vm_compute; reflexivity|].
    constructor.
  - repeat constructor; vm_compute; reflexivity.
Defined.

Lemma multipart_lines_shift (lines : list bytes) (rest : bytes) :
  CRLF ++ concat ((λ l, l ++ CRLF) <$> lines) ++ rest
  = concat ((λ l, CRLF ++ l) <$> lines) ++ CRLF ++ rest.
Proof.
  induction lines as [|l lines IH]; [done|].
  rewrite !fmap_cons. cbn [concat]. rewrite <- !(assoc_L (++)).
  f_equal. f_equal. exact IH.
Qed.

(** X22. The body that a client frames for one part (RFC 2046) decodes to
    the mapping of its header lines and to its payload followed by the
    line break that precedes the closing delimiter: [formbody] is always
    two bytes longer than what was sent. (For a delimiter that occurs
    nowhere else in the part, and header lines as in X21.) *)
Theorem FormData_single_part
    (boundary payload : bytes) (hs : list (bytes * bytes)) (ks : list (str * str)) :
  let delimiter := B "--" ++ boundary in
  let lines := (λ h : bytes * bytes, h.1 ++ B ": " ++ h.2) <$> hs in
  let part := CRLF ++ concat ((λ l, l ++ CRLF) <$> lines) ++ CRLF ++ payload ++ CRLF in
  (∀ p q, part ++ delimiter = p ++ delimiter ++ q → length part ≤ length p) →
  (¬ ∃ p q, B "--" ++ CRLF = p ++ delimiter ++ q) →
  Forall (λ h, (CR ∉ h.1) ∧ (CR ∉ h.2) ∧ (":"%byte ∉ h.1)
               ∧ ¬ ∃ p q, h.2 = p ++ B ": " ++ q) hs →
  Forall2 (λ h kv, decode h.1 = Ok kv.1 ∧ decode h.2 = Ok kv.2) hs ks →
  FormData.init (multipart_body boundary [(lines, payload)]) boundary
  = Ok (FormData.mk boundary
          (Some (foldl (λ m kv, <[kv.1 := kv.2]> m) ∅ ks))
          (Some (payload ++ CRLF))).
Proof.
  intros delimiter lines part Hpart Hclosing Hhs Hdec.
  assert (Hbody : multipart_body boundary [(lines, payload)]
                  = [] ++ concat ((λ part, delimiter ++ part) <$> [part])
                      ++ delimiter ++ B "--" ++ CRLF).
  { unfold multipart_body, multipart_part, part, delimiter. cbn [fmap list_fmap concat fst snd].
    rewrite !(right_id_L [] (++)). by rewrite <- !(assoc_L (++)). }
  assert (Hfp : FormData.form_parts boundary (multipart_body boundary [(lines, payload)])
                = [part]).
  { rewrite Hbody.
    apply (form_parts_cut boundary [] (B "--" ++ CRLF) [part]);
      [intros p q _; simpl; lia|by repeat constructor|done]. }
  unfold FormData.init, FormData.doParse. cbn [FormData.boundary].
  rewrite Hfp. cbn [FormData.doParse_loop].
  assert (Hshape : part = [] ++ concat ((λ h : bytes * bytes,
                                           CRLF ++ h.1 ++ B ": " ++ h.2) <$> hs)
                            ++ (CRLF ++ CRLF) ++ payload ++ CRLF).
  { unfold part. rewrite multipart_lines_shift. unfold lines.
    rewrite <- list_fmap_compose. by rewrite <- !(assoc_L (++)). }
  assert (Hp : FormData.doParse_part (FormData.mk boundary None None) part
               = Ok (FormData.mk boundary
                       (Some (foldl (λ (m : gmap str str) (kv : str * str),
                                       <[kv.1 := kv.2]> m) ∅ ks))
                       (Some (payload ++ CRLF)))).
  { rewrite Hshape.
    apply (doParse_part_lines (FormData.mk boundary None None) [] (payload ++ CRLF)
             hs ks); [apply not_elem_of_nil|done|done]. }
  by rewrite Hp.
Qed.

Lemma FormData_single_part_witness :
  FormData.init
    (multipart_body (B "XYZ")
       [((λ h : bytes * bytes, h.1 ++ B ": " ++ h.2)
           <$> [(B "Content-Disposition", disposition_value (B "a.txt"));
                (B "Content-Type", B "text/plain")],
         B "hello")])
    (B "XYZ")
  = Ok (FormData.mk (B "XYZ")
          (Some (foldl (λ (m : gmap str str) (kv : str * str), <[kv.1 := kv.2]> m) ∅
                   [(U "Content-Disposition", latin1 (disposition_value (B "a.txt")));
                    (U "Content-Type", U "text/plain")]))
          (Some (B "hello" ++ CRLF))).
Proof.
  apply (FormData_single_part (B "XYZ") (B "hello")
           [(B "Content-Disposition", disposition_value (B "a.txt"));
            (B "Content-Type", B "text/plain")]
           [(U "Content-Disposition", latin1 (disposition_value (B "a.txt")));
            (U "Content-Type", U "text/plain")]).
  - intros p q Hpq. eapply find_Some_min; [|exact Hpq]. vm_compute. reflexivity.
  - apply find_None. vm_compute. reflexivity.
  - assert (Hline : ∀ k v : bytes,
               bool_decide (CR ∈ k) = false → bool_decide (CR ∈ v) = false →
               bool_decide (":"%byte ∈ k) = false → find (B ": ") v = None →
               (CR ∉ k) ∧ (CR ∉ v) ∧ (":"%byte ∉ k) ∧ ¬ ∃ p q, v = p ++ B ": " ++ q).
    { intros k v H1 H2 H3 H4. apply bool_decide_eq_false in H1, H2, H3.
      by apply find_None in H4. }
    apply Forall_cons. split; [apply Hline; vm_compute; reflexivity|].
    apply Forall_cons. split; [apply Hline; vm_compute; reflexivity|].
    constructor.
  - repeat constructor; vm_compute; reflexivity.
Defined.

(** ** From the bytes of an isPrime request to its reply *)

Lemma decode_ascii (b : bytes) :
  Forall (λ x, (Byte.to_N x < 128)%N) b → decode b = Ok (latin1 b).
Proof.
  intros Hb. unfold decode.
  assert (H : decode_utf8 (Byte.to_N <$> b) = Some (latin1 b)).
  { induction Hb as [|x b Hx _ IH]; [done|].
    rewrite fmap_cons. cbn [decode_utf8].
    apply N.ltb_lt in Hx. rewrite Hx, IH. done. }
  by rewrite H.
Qed.

Lemma rstrip_app_free {A} `{EqDecision A} (chars x y : list A) (c : A) :
  c ∉ chars → rstrip chars (x ++ y ++ [c]) = x ++ y ++ [c].
Proof.
  intros Hc. unfold rstrip.
  rewrite !reverse_app. change (reverse [c]) with [c]. simpl.
  rewrite bool_decide_eq_false_2 by done.
  change (c :: reverse y ++ reverse x) with ([c] ++ reverse y ++ reverse x).
  by rewrite !reverse_app, !reverse_involutive, <- !(assoc_L (++)).
Qed.

Lemma digits_free (ds : bytes) (c : byte) :
  Forall (λ x, (48 ≤ Byte.to_N x ≤ 57)%N) ds →
  ((Byte.to_N c < 48)%N ∨ (57 < Byte.to_N c)%N) → c ∉ ds.
Proof.
  intros Hds Hc Hin. rewrite Forall_forall in Hds. specialize (Hds c Hin). lia.
Qed.

Lemma latin1_free (b : bytes) (c : byte) : c ∉ b → Byte.to_N c ∉ latin1 b.
Proof.
  intros Hc Hin. apply Hc. unfold latin1 in Hin.
  apply list_elem_of_fmap in Hin as (x & Hx & Hin).
  assert (x = c) as <-; [|done].
  apply (f_equal Byte.of_N) in Hx. rewrite !Byte.of_to_N in Hx. congruence.
Qed.

Lemma doParse_isPrime_digits (ds : bytes) (d : byte) :
  Forall (λ x, (48 ≤ Byte.to_N x ≤ 57)%N) (ds ++ [d]) →
  HTTPRequest.doParse
    (B "GET /isPrime?number=" ++ (ds ++ [d]) ++ B " HTTP/1.1" ++ CRLF ++ CRLF)
  = Ok (HTTPRequest.mk (U "GET") (U "isPrime")
          (Some {[ U "number" := latin1 (ds ++ [d]) ]}) (U "1.1") ∅ []).
Proof.
  intros Hds.
  assert (Hd : (48 ≤ Byte.to_N d ≤ 57)%N).
  { rewrite Forall_app, Forall_singleton in Hds. tauto. }
  assert (Hlast : latin1 (ds ++ [d]) = latin1 ds ++ [Byte.to_N d])
    by apply latin1_app.
  set (digits := ds ++ [d]) in *.
  set (head := B "GET /isPrime?number=" ++ digits ++ B " HTTP/1.1").
  set (v := U "/isPrime?number=" ++ latin1 digits).
  assert (Hfree : ∀ c : byte,
             ((Byte.to_N c < 48)%N ∨ (57 < Byte.to_N c)%N) →
             bool_decide (c ∈ B "GET /isPrime?number=" ++ B " HTTP/1.1") = false →
             c ∉ head).
  { intros c Hc Hb. apply bool_decide_eq_false in Hb. unfold head.
    rewrite !elem_of_app in *. intros [?|[Hin|?]]; [tauto| |tauto].
    revert Hin. by apply digits_free. }
  assert (Hascii : Forall (λ x, (Byte.to_N x < 128)%N) head).
  { unfold head. apply Forall_app. split; [by repeat constructor|].
    apply Forall_app. split; [|by repeat constructor].
    eapply Forall_impl; [exact Hds|]. simpl. lia. }
  apply doParse_Ok_steps.
  exists head, (latin1 head), (latin1 head), [], [v; U "HTTP/1.1"], v, [].
  cbn [HTTPRequest.body HTTPRequest.method HTTPRequest.endpoint HTTPRequest.qparams
       HTTPRequest.http_version HTTPRequest.headers].
  split.
  { replace (B "GET /isPrime?number=" ++ digits ++ B " HTTP/1.1" ++ CRLF ++ CRLF)
      with (head ++ (CRLF ++ CRLF) ++ [])
      by (unfold head; by rewrite <- !(assoc_L (++))).
    apply (split_max_1_first _ _ []).
    apply (find_after_free CR [LF; CR; LF] head []).
    apply Hfree; [left; vm_compute; reflexivity|vm_compute; reflexivity]. }
  split; [by apply decode_ascii|].
  split.
  { apply split_None. apply (find_free 13%N [10%N]).
    apply (latin1_free head CR).
    apply Hfree; [left; vm_compute; reflexivity|vm_compute; reflexivity]. }
  split.
  { assert (Hsp : ∀ b : bytes, " "%byte ∉ b → 32%N ∉ latin1 b).
    { intros b. apply (latin1_free b " "%byte). }
    assert (Hdsp : " "%byte ∉ digits)
      by (apply digits_free; [done|left; vm_compute; reflexivity]).
    replace (latin1 head)
      with (U "GET" ++ concat ((λ l, (32%N :: []) ++ l) <$> [v; U "HTTP/1.1"])).
    2:{ unfold head, v. rewrite !latin1_app. reflexivity. }
    apply (split_lines 32%N [] (U "GET") [v; U "HTTP/1.1"]).
    - by apply (bool_decide_eq_false_1 (32%N ∈ U "GET")).
    - repeat apply Forall_cons_2; [| |constructor].
      + unfold v. rewrite elem_of_app. intros [Hin|Hin].
        * by apply (bool_decide_eq_false_1 (32%N ∈ U "/isPrime?number=")) in Hin.
        * by apply Hsp in Hin.
      + by apply (bool_decide_eq_false_1 (32%N ∈ U "HTTP/1.1")). }
  split.
  { rewrite filter_cons_False by (vm_compute; tauto).
    rewrite filter_cons_True by (vm_compute; tauto).
    rewrite filter_cons_False by (vm_compute; tauto). done. }
  split.
  { assert (Hstrip : strip (U "/") v = U "isPrime?number=" ++ latin1 digits).
    { unfold strip. change (lstrip (U "/") v) with (U "isPrime?number=" ++ latin1 digits).
      rewrite Hlast.
      apply rstrip_app_free. change (U "/") with [47%N].
      rewrite list_elem_of_singleton. intros Heq. rewrite Heq in Hd. lia. }
    rewrite Hstrip. unfold HTTPRequest.parse_uri, contains.
    change (find (U "?") (U "isPrime?number=" ++ latin1 digits)) with (Some 7).
    change (split_max 1 (U "?") (U "isPrime?number=" ++ latin1 digits))
      with [U "isPrime"; U "number=" ++ latin1 digits].
    cbn [unpack2]. bind_step. cbv beta iota zeta.
    unfold HTTPRequest.parse_query.
    assert (Hamp : split (U "&") (U "number=" ++ latin1 digits)
                   = [U "number=" ++ latin1 digits]).
    { apply split_None. apply (find_free 38%N []).
      rewrite elem_of_app. intros [Hin|Hin].
      - by apply (bool_decide_eq_false_1 (38%N ∈ U "number=")) in Hin.
      - revert Hin. apply (latin1_free _ "&"%byte).
        apply digits_free; [done|left; vm_compute; reflexivity]. }
    rewrite Hamp. cbn [fmap list_fmap].
    change (split_max 1 (U "=") (U "number=" ++ latin1 digits))
      with [U "number"; latin1 digits].
    cbn [dict_of unpack2]. bind_step. cbv beta iota zeta. bind_step.
    by rewrite insert_empty. }
  split; [|done].
  unfold HTTPRequest.parse_version.
  rewrite filter_cons_False by (vm_compute; tauto).
  rewrite filter_cons_False by (vm_compute; tauto).
  rewrite filter_cons_True by (vm_compute; tauto). done.
Qed.

Section EndToEnd.
Context {fs : Type}.
Variable uploaddir : str.
Variable os_listdir : str → fs → option (list str).
Variable os_remove : str → fs → option fs.
Variable os_rename : str → str → fs → option fs.
Variable read_file : str → fs → option bytes.
Variable guess_type : str → option str.
Variable upload_multipart : HTTPRequest.t → fs → HTTPServer.outcome fs.
Variable int_of_str : str → result Z.
Variable int_sqrt_far : Z → result Z.

(** X23. From the bytes to the reply: the request
    [GET /isPrime?number=<digits> HTTP/1.1] without headers, for digits
    that [int] reads as a number from [2] up to [2^52], is answered with
    [200 OK] and an [isPrime] that is true exactly when the number is
    prime; the file system is left as it is. *)
Theorem isPrime_request_reply (digits : bytes) (n : Z) (files : fs) :
  digits ≠ [] →
  Forall (λ x, (48 ≤ Byte.to_N x ≤ 57)%N) digits →
  int_of_str (latin1 digits) = Ok n →
  (2 ≤ n < 2 ^ 52)%Z →
  ∃ b : bool,
    (b = true ↔ Z.prime n)
    ∧ HTTPServer.handle_request uploaddir os_listdir os_remove os_rename read_file
        guess_type upload_multipart int_of_str int_sqrt_far
        (B "GET /isPrime?number=" ++ digits ++ B " HTTP/1.1" ++ CRLF ++ CRLF) files
      = HTTPServer.Reply
          (B "HTTP/1.1 200 OK" ++ CRLF
             ++ B "Server: KeremenciServer" ++ CRLF
             ++ B "Content-Type: application/json" ++ CRLF
             ++ CRLF
             ++ B "{" ++ quoted (B "number") ++ B ": " ++ B (pretty n) ++ B ", "
             ++ quoted (B "isPrime") ++ B ": " ++ B (if b then "true" else "false")
             ++ B "}")
          files.
Proof.
  intros Hne Hds Hint Hn.
  destruct digits as [|d ds _] using rev_ind; [done|].
  pose proof (doParse_isPrime_digits ds d Hds) as Hp.
  set (r := HTTPRequest.mk (U "GET") (U "isPrime")
              (Some {[ U "number" := latin1 (ds ++ [d]) ]}) (U "1.1") ∅ []) in *.
  destruct (handle_is_prime_trial int_of_str int_sqrt_far r
              {[ U "number" := latin1 (ds ++ [d]) ]} (latin1 (ds ++ [d])) n)
    as (b & Hb & Hr); [done|apply lookup_singleton_eq|done|done|].
  exists b. split; [done|].
  rewrite (handle_request_is_prime uploaddir os_listdir os_remove os_rename read_file
             guess_type upload_multipart int_of_str int_sqrt_far _ r files Hp);
    [|done|done].
  by rewrite Hr.
Qed.

End EndToEnd.

Lemma isPrime_request_reply_witness :
  ∃ b : bool,
    (b = true ↔ Z.prime 97)
    ∧ HTTPServer.handle_request Disk.uploaddir Disk.os_listdir Disk.os_remove
        Disk.os_rename Disk.read_file Disk.guess_type Disk.upload_multipart
        HTTPServer.int_of_decimal (λ _, Raise OverflowError)
        (B "GET /isPrime?number=" ++ B "97" ++ B " HTTP/1.1" ++ CRLF ++ CRLF)
        Disk.files
      = HTTPServer.Reply
          (B "HTTP/1.1 200 OK" ++ CRLF
             ++ B "Server: KeremenciServer" ++ CRLF
             ++ B "Content-Type: application/json" ++ CRLF
             ++ CRLF
             ++ B "{" ++ quoted (B "number") ++ B ": " ++ B (pretty 97%Z) ++ B ", "
             ++ quoted (B "isPrime") ++ B ": " ++ B (if b then "true" else "false")
             ++ B "}")
          Disk.files.
Proof.
  apply (isPrime_request_reply Disk.uploaddir Disk.os_listdir Disk.os_remove
           Disk.os_rename Disk.read_file Disk.guess_type Disk.upload_multipart
           HTTPServer.int_of_decimal (λ _, Raise OverflowError) (B "97") 97%Z
           Disk.files).
  - discriminate.
  - repeat constructor; vm_compute; discriminate.
  - vm_compute. reflexivity.
  - lia.
Defined.
